(** * kilroylib: the training example notebook

    A shallow embedding of [notebooks/example.ipynb]: the helper [mean], the
    demonstration face [MyFace], the Bernoulli [Model] and the two modules
    [MyOfflineModule] and [MyOnlineModule] built on it, followed by a model
    of the training engine the notebook drives them with, and by the
    properties of both.

    Conventions of the embedding.
    - Python numbers are exact rationals ([Q]); the notebook's floats are
      idealised, and every statement about them is an order statement
      ([Qle], [Qlt]) or an equation of results.
    - A raised exception is a value of [exn]; a method that may raise
      returns a [result].
    - Dictionaries keyed by integers are [gmap Z _]; a dictionary whose
      iteration order matters is an insertion-ordered association list.
    - Both modules of the notebook hold a reference to one [Model] object.
      A module record keeps the module's own attributes, and each method
      takes the shared model as an argument and returns it when it writes
      to it. *)

From Stdlib Require Import ZArith QArith Qminmax List Lia Lqa Bool.
From stdpp Require Import base option list strings gmap.
Import ListNotations.

Local Open Scope Z_scope.

(** ** Exceptions and results *)

Inductive exn : Type :=
| ZeroDivisionError
| KeyError (key : Z).

Inductive result (A : Type) : Type :=
| Ok (a : A)
| Raise (e : exn).

Arguments Ok {A} a.
Arguments Raise {A} e.

(** Sequencing: an exception raised by the first computation propagates.
    With these instances [x ← r; k] is stdpp's bind notation. *)
#[export] Instance result_bind : MBind result := fun A B k r =>
  match r with
  | Ok a => k a
  | Raise e => Raise e
  end.

#[export] Instance result_ret : MRet result := @Ok.

(** ** Python built-ins used by the notebook *)

(** [int(b)] for a boolean. *)
Definition int (b : bool) : Z := if b then 1 else 0.

(** [a < b] on numbers, as a boolean. *)
Definition Qltb (a b : Q) : bool := negb (Qle_bool b a).

(** [min(a, b)]: the first argument unless the second is strictly smaller. *)
Definition py_min (a b : Q) : Q := if Qltb b a then b else a.

(** [max(a, b)]: the first argument unless the second is strictly larger. *)
Definition py_max (a b : Q) : Q := if Qltb a b then b else a.

(** [sum(it)]: starts from 0 and adds from the left. *)
Definition py_sum (it : list Q) : Q := fold_left Qplus it 0%Q.

(** [len(it)]. *)
Definition len {A : Type} (it : list A) : Z := Z.of_nat (length it).

(** [a / n] with an integer divisor: true division, raising on zero. *)
Definition py_div (a : Q) (n : Z) : result Q :=
  if n =? 0 then Raise ZeroDivisionError else Ok (a / inject_Z n)%Q.

(** [x or d] for an optional integer: [None] and [0] are falsy. *)
Definition py_or (x : option Z) (d : Z) : Z :=
  match x with
  | None => d
  | Some 0 => d
  | Some v => v
  end.

(** [range(n)] as a list. *)
Definition range (n : Z) : list Z := map Z.of_nat (seq 0 (Z.to_nat n)).

(** [d[k] = v] on an insertion-ordered dictionary: an existing key keeps
    its position and takes the new value, a new key goes last. *)
Fixpoint dict_set {K V : Type} `{EqDecision K} (k : K) (v : V)
    (d : list (K * V)) : list (K * V) :=
  match d with
  | [] => [(k, v)]
  | (k', v') :: d' =>
      if decide (k = k') then (k, v) :: d' else (k', v') :: dict_set k v d'
  end.

(** [def mean(it): return sum(it) / len(it)] *)
Definition mean (it : list Q) : result Q := py_div (py_sum it) (len it).

(** ** class MyFace *)

Module MyFace.

Record t : Type := mk { i : Z; posts : gmap Z bool }.

(** [__init__] *)
Definition init : t := {| i := 0; posts := ∅ |}.

(** The asynchronous generator returned by [scrap(limit)]. Creating it runs
    nothing; the body runs as the consumer asks for items:
    [Created] is the generator before its first item was asked for,
    [Looping n k] is the generator suspended in [for i in range(n)] with
    [k] the next index, [Finished] is the exhausted generator. *)
Inductive scrap_gen : Type :=
| Created (limit : option Z)
| Looping (n k : Z)
| Finished.

Definition scrap (limit : option Z) : scrap_gen := Created limit.

(** One turn of [for i in range(n): yield i, i % 3 == 0]. *)
Definition scrap_loop (n k : Z) : option (Z * bool) * scrap_gen :=
  if k <? n then (Some (k, k mod 3 =? 0), Looping n (k + 1))
  else (None, Finished).

(** Asking the generator for its next item ([None]: StopAsyncIteration). *)
Definition scrap_next (g : scrap_gen) (self : t)
    : option (Z * bool) * scrap_gen * t :=
  match g with
  | Created limit =>
      let n := py_or limit 100 in
      let self' := {| i := n + 1; posts := posts self |} in
      (scrap_loop n 0, self')
  | Looping n k => (scrap_loop n k, self)
  | Finished => (None, Finished, self)
  end.

(** The items obtained by asking at most [pulls] times. *)
Fixpoint scrap_take (pulls : nat) (g : scrap_gen) (self : t)
    : list (Z * bool) * scrap_gen * t :=
  match pulls with
  | O => ([], g, self)
  | S pulls' =>
      match scrap_next g self with
      | (None, g', self') => ([], g', self')
      | (Some item, g', self') =>
          let '(items, g'', self'') := scrap_take pulls' g' self' in
          (item :: items, g'', self'')
      end
  end.

(** [post(data)] *)
Definition post (data : bool) (self : t) : Z * t :=
  let post_id := i self in
  (post_id, {| i := i self + 1; posts := <[post_id := data]> (posts self) |}).

(** [score(post_id)]: [int(self.posts[post_id]) * 2 - 1] *)
Definition score (post_id : Z) (self : t) : result Z :=
  match posts self !! post_id with
  | Some data => Ok (int data * 2 - 1)
  | None => Raise (KeyError post_id)
  end.

End MyFace.

(** ** class Model *)

Module Model.

Record t : Type := mk { _p : Q }.

(** [__init__(self, p=0.5)]: stores [p] as given. *)
Definition init (p : option Q) : t :=
  {| _p := match p with Some v => v | None => 0.5%Q end |}.

(** The property [p]. *)
Definition p (self : t) : Q := _p self.

(** The setter of [p]: [self._p = max(min(value, 1), 0)]. *)
Definition set_p (value : Q) (self : t) : t :=
  {| _p := py_max (py_min value 1) 0 |}.

End Model.

(** ** class MyOfflineModule *)

Module MyOfflineModule.

Record t : Type := mk { deltas : list Q; alpha : Q }.

(** [__init__(self, model, alpha=0.001)] *)
Definition init (alpha : option Q) : t :=
  {| deltas := []; alpha := match alpha with Some a => a | None => 0.001%Q end |}.

(** [fit(posts)] *)
Definition fit (posts : list bool) (self : t) (model : Model.t) : result t :=
  p_est ← py_div (py_sum (map (fun post => inject_Z (int post)) posts)) (len posts);
  Ok {| deltas := deltas self ++ [(p_est - Model.p model)%Q]; alpha := alpha self |}.

(** [step()]: the updated module is the returned [self]. *)
Definition step (self : t) (model : Model.t) : result (t * Model.t) :=
  m ← mean (deltas self);
  let model' := Model.set_p (Model.p model + alpha self * m)%Q model in
  Ok ({| deltas := []; alpha := alpha self |}, model').

End MyOfflineModule.

(** ** class MyOnlineModule *)

Module MyOnlineModule.

Record t : Type :=
  mk { deltas : list Q; alpha : Q; posts : gmap Z bool; i : Z }.

(** [__init__(self, model, alpha=0.1)] *)
Definition init (alpha : option Q) : t :=
  {| deltas := [];
     alpha := match alpha with Some a => a | None => 0.1%Q end;
     posts := ∅;
     i := 0 |}.

(** [sample(n)] run to exhaustion. [drawn] is the list that
    [random.choices([True, False], ..., k=n)] returned; each of its posts
    is stored under the running index and yielded with it. *)
Fixpoint sample (drawn : list bool) (self : t) : list (Z * bool) * t :=
  match drawn with
  | [] => ([], self)
  | post :: rest =>
      let stored :=
        {| deltas := deltas self; alpha := alpha self;
           posts := <[i self := post]> (posts self); i := i self |} in
      let resumed :=
        {| deltas := deltas stored; alpha := alpha stored;
           posts := posts stored; i := i stored + 1 |} in
      let '(items, self') := sample rest resumed in
      ((i self, post) :: items, self')
  end.

(** [{self.posts[post_id]: score for post_id, score in scores.items()}],
    built in iteration order on top of [acc]. *)
Fixpoint by_content (posts : gmap Z bool) (items : list (Z * Q))
    (acc : list (bool * Q)) : result (list (bool * Q)) :=
  match items with
  | [] => Ok acc
  | (post_id, score) :: rest =>
      match posts !! post_id with
      | Some x => by_content posts rest (dict_set x score acc)
      | None => Raise (KeyError post_id)
      end
  end.

(** [fit(scores)]; [scores] lists the items of the dictionary argument. *)
Definition fit (scores : list (Z * Q)) (self : t) (model : Model.t) : result t :=
  scores' ← by_content (posts self) scores [];
  delta ← py_div
    (py_sum (map (fun '(x, score) => ((inject_Z (int x) - Model.p model) * score)%Q)
                 scores'))
    (len scores');
  Ok {| deltas := deltas self ++ [delta]; alpha := alpha self;
        posts := posts self; i := i self |}.

(** [step()]: the updated module is the returned [self]. *)
Definition step (self : t) (model : Model.t) : result (t * Model.t) :=
  m ← mean (deltas self);
  let model' := Model.set_p (Model.p model + alpha self * m)%Q model in
  Ok ({| deltas := []; alpha := alpha self; posts := posts self; i := i self |},
      model').

End MyOnlineModule.

(** ** Runs of the face

    A run is a sequence of operations on one face object: iterating a
    fresh [scrap(limit)] generator, asking it at most [pulls] times
    ([async for] asks until the generator is exhausted), and posting. *)

Inductive face_op : Type :=
| Scrap (limit : option Z) (pulls : nat)
| Post (data : bool).

(** What a run shows of identifiers: those yielded by [scrap] and those
    returned by [post]. *)
Inductive face_event : Type :=
| Scraped (post_id : Z) (content : bool)
| Posted (post_id : Z) (data : bool).

Definition face_op_run (op : face_op) (self : MyFace.t)
    : list face_event * MyFace.t :=
  match op with
  | Scrap limit pulls =>
      let '(items, _, self') := MyFace.scrap_take pulls (MyFace.scrap limit) self in
      (map (fun '(post_id, content) => Scraped post_id content) items, self')
  | Post data =>
      let '(post_id, self') := MyFace.post data self in
      ([Posted post_id data], self')
  end.

Fixpoint face_run (ops : list face_op) (self : MyFace.t)
    : list face_event * MyFace.t :=
  match ops with
  | [] => ([], self)
  | op :: rest =>
      let '(evs, self') := face_op_run op self in
      let '(evs', self'') := face_run rest self' in
      (evs ++ evs', self'')
  end.

Definition event_id (ev : face_event) : Z :=
  match ev with
  | Scraped post_id _ => post_id
  | Posted post_id _ => post_id
  end.

Definition is_posted (ev : face_event) : bool :=
  match ev with
  | Posted _ _ => true
  | Scraped _ _ => false
  end.

(** The identifiers a run handed out, in order. *)
Definition identifiers (evs : list face_event) : list Z := map event_id evs.

(** The identifiers [post] returned. *)
Definition posted_ids (evs : list face_event) : list Z :=
  map event_id (filter (fun ev => is_posted ev = true) evs).

(** Pairwise distinctness, decided. *)
Fixpoint distinct (ids : list Z) : bool :=
  match ids with
  | [] => true
  | x :: rest => negb (existsb (Z.eqb x) rest) && distinct rest
  end.

(** ** The notebook's objects and the calls made on its modules *)

Record Notebook : Type := mkNotebook {
  model : Model.t;
  offline_module : MyOfflineModule.t;
  online_module : MyOnlineModule.t
}.

(** The setup cell: [model = Model()], [MyOfflineModule(model)],
    [MyOnlineModule(model)]. *)
Definition setup : Notebook :=
  {| model := Model.init None;
     offline_module := MyOfflineModule.init None;
     online_module := MyOnlineModule.init None |}.

Inductive call : Type :=
| OfflineFit (posts : list bool)
| OfflineStep
| OnlineSample (drawn : list bool)
| OnlineFit (scores : list (Z * Q))
| OnlineStep.

Definition call_run (c : call) (nb : Notebook) : result Notebook :=
  match c with
  | OfflineFit posts =>
      self ← MyOfflineModule.fit posts (offline_module nb) (model nb);
      Ok {| model := model nb; offline_module := self;
            online_module := online_module nb |}
  | OfflineStep =>
      '(self, model') ← MyOfflineModule.step (offline_module nb) (model nb);
      Ok {| model := model'; offline_module := self;
            online_module := online_module nb |}
  | OnlineSample drawn =>
      let '(_, self) := MyOnlineModule.sample drawn (online_module nb) in
      Ok {| model := model nb; offline_module := offline_module nb;
            online_module := self |}
  | OnlineFit scores =>
      self ← MyOnlineModule.fit scores (online_module nb) (model nb);
      Ok {| model := model nb; offline_module := offline_module nb;
            online_module := self |}
  | OnlineStep =>
      '(self, model') ← MyOnlineModule.step (online_module nb) (model nb);
      Ok {| model := model'; offline_module := offline_module nb;
            online_module := self |}
  end.

(** A sequence of calls stops at the first exception; the result is the
    state of the objects then and the exception, if any. *)
Fixpoint calls_run (cs : list call) (nb : Notebook) : Notebook * option exn :=
  match cs with
  | [] => (nb, None)
  | c :: rest =>
      match call_run c nb with
      | Ok nb' => calls_run rest nb'
      | Raise e => (nb, Some e)
      end
  end.

(** The number of [fit] calls of the offline module since its last [step]. *)
Fixpoint offline_fits_pending (acc : nat) (cs : list call) : nat :=
  match cs with
  | [] => acc
  | OfflineFit _ :: rest => offline_fits_pending (S acc) rest
  | OfflineStep :: rest => offline_fits_pending O rest
  | _ :: rest => offline_fits_pending acc rest
  end.

(** The number of [fit] calls of the online module since its last [step]. *)
Fixpoint online_fits_pending (acc : nat) (cs : list call) : nat :=
  match cs with
  | [] => acc
  | OnlineFit _ :: rest => online_fits_pending (S acc) rest
  | OnlineStep :: rest => online_fits_pending O rest
  | _ :: rest => online_fits_pending acc rest
  end.

(** The scoring the notebook demonstrates: every entry of [scores] belongs
    to a post of the module and carries the score [MyFace.score] gives to
    that post's content. *)
Definition demonstrated_scoring (posts : gmap Z bool) (scores : list (Z * Q)) : Prop :=
  Forall (fun '(post_id, score) =>
            exists x, posts !! post_id = Some x /\ score = inject_Z (int x * 2 - 1))
         scores.

(** * The training engine

    The notebook imports the trainers, the posts loader, the dataset
    factories, the stop conditions, the generator and the scheduler from
    [kilroylib.training] and [kilroylib.data], and the interfaces [Face],
    [OfflineModule] and [OnlineModule] from [kilroyshare]. None of their
    sources is part of the files at hand; the definitions of this part
    follow the specification's description of them and the way the
    notebook calls them. *)

(** ** Interfaces *)

(** Modelled from the spec: the [Face] interface (its source is missing),
    a platform that "produces a lazy, possibly-infinite sequence of
    (identifier, content) pairs via a scraping operation; accepts content
    for posting and returns an identifier; accepts an identifier and
    returns a numeric score". [face_scrap] is the scraping iterated to
    exhaustion, as a bulk load does. *)
Class Face (F KE V : Type) : Type := {
  face_scrap : option Z -> F -> list (KE * V) * F;
  face_post : V -> F -> KE * F;
  face_score : KE -> F -> result Q
}.

(** Modelled from the spec: the [OfflineModule] interface (its source is
    missing), a "user-supplied unit exposing fit/step (offline)". *)
Class OfflineModule (M V : Type) : Type := {
  offline_fit : list V -> M -> result M;
  offline_step : M -> result M
}.

(** Modelled from the spec: the [OnlineModule] interface (its source is
    missing), a "user-supplied unit exposing sample/fit/step (online)";
    [online_sample n] is [sample(n)] iterated to exhaustion and
    [online_fit] takes the items of the scores dictionary. *)
Class OnlineModule (M KI V : Type) : Type := {
  online_sample : nat -> M -> list (KI * V) * M;
  online_fit : list (KI * Q) -> M -> result M;
  online_step : M -> result M
}.

(** ** The notebook's classes as implementations of the interfaces *)

#[export] Instance MyFace_Face : Face MyFace.t Z bool := {
  face_scrap limit self :=
    let '(items, _, self') :=
      MyFace.scrap_take (S (Z.to_nat (py_or limit 100))) (MyFace.scrap limit) self in
    (items, self');
  face_post := MyFace.post;
  face_score post_id self := v ← MyFace.score post_id self; Ok (inject_Z v)
}.



(** The random source behind [random.choices]: the outcomes it will
    produce, and how many were consumed. Every sequence of outcomes is
    allowed, whatever the weights. *)
Record Random : Type := mkRandom {
  outcomes : nat -> bool;
  consumed : nat
}.

Definition choices (k : nat) (r : Random) : list bool * Random :=
  (map (outcomes r) (seq (consumed r) k),
   {| outcomes := outcomes r; consumed := (consumed r + k)%nat |}).

Record OnlineObject : Type := mkOnlineObject {
  online_self : MyOnlineModule.t;
  online_model : Model.t;
  online_random : Random
}.

#[export] Instance MyOnlineModule_OnlineModule : OnlineModule OnlineObject Z bool := {
  online_sample n o :=
    let '(drawn, random') := choices n (online_random o) in
    let '(items, self) := MyOnlineModule.sample drawn (online_self o) in
    (items, {| online_self := self; online_model := online_model o;
               online_random := random' |});
  online_fit scores o :=
    self ← MyOnlineModule.fit scores (online_self o) (online_model o);
    Ok {| online_self := self; online_model := online_model o;
          online_random := online_random o |};
  online_step o :=
    '(self, model') ← MyOnlineModule.step (online_self o) (online_model o);
    Ok {| online_self := self; online_model := model';
          online_random := online_random o |}
}.

(** ** Stop conditions *)

(** Modelled from the spec: the stop state (its source is missing),
    "counters (epochs completed, updates completed) maintained by the
    trainer and consulted by the stop condition each iteration". *)
Record TrainingState : Type := mkTrainingState {
  epochs : nat;
  updates : nat
}.

(** Modelled from the spec: stop conditions (their source is missing),
    "pluggable predicates (e.g., maximum epoch count, maximum update
    count) queried once per training iteration". *)
Definition StopCondition : Type := TrainingState -> bool.


(** Modelled from the spec: the "maximum update count" stop condition (its
    source is missing); [MaxUpdates(n)] is satisfied once [n] updates were
    completed. *)
Definition MaxUpdates (n : nat) : StopCondition := fun st => (n <=? updates st)%nat.

(** How a training call ended: it returned, an exception of a module or of
    the face propagated, or the loop was still running when the bound on
    the number of iterations was reached. *)
Inductive ending : Type :=
| Returned
| Raised (e : exn)
| StillRunning.

(** ** Datasets and batches *)

(** Modelled from the spec: the dataset factories (their source is
    missing), "at least two strategies — in-memory caching and file-backed
    caching". *)
Inductive DatasetFactory : Type :=
| MemoryCachingDatasetFactory
| FileCachingDatasetFactory (path : string).

(** Modelled from the spec: the posts loader (its source is missing), which
    "batches cached posts into fixed-size groups". *)
Record PostsLoader : Type := mkPostsLoader {
  batch_size : nat;
  dataset_factory : DatasetFactory
}.

(** Modelled from the spec: a batch is "an ordered, fixed-size group of
    posts drawn from a dataset" (the batching code is missing). The
    groups are cut from the front of the dataset in order; posts left
    over after the last full group form no batch. *)
Fixpoint groups_of {A : Type} (fuel k : nat) (l : list A) : list (list A) :=
  match fuel with
  | O => []
  | S fuel' =>
      if ((k =? 0) || (length l <? k))%nat then []
      else take k l :: groups_of fuel' k (drop k l)
  end.

(** Modelled from the spec: the batches of a dataset (the batching code is
    missing), its "fixed-size groups" of [k] posts. *)
Definition batches {A : Type} (k : nat) (l : list A) : list (list A) :=
  groups_of (length l) k l.

(** ** The offline trainer *)

(** Modelled from the spec: the offline trainer's parts (their source is
    missing): a stop condition and a posts loader. *)
Record OfflineTrainer : Type := mkOfflineTrainer {
  stop_condition : StopCondition;
  posts_loader : PostsLoader
}.

Section Offline.

Context {F M KE V : Type} `{Face F KE V} `{OfflineModule M V}.

(** Modelled from the spec: where the two caching strategies keep a
    dataset (their source is missing): the memory of the process for the
    in-memory strategy, a file for the file-backed one. *)
Record Storage : Type := mkStorage {
  memory : option (list (KE * V));
  files : gmap string (list (KE * V))
}.

Definition cached (factory : DatasetFactory) (st : Storage) : option (list (KE * V)) :=
  match factory with
  | MemoryCachingDatasetFactory => memory st
  | FileCachingDatasetFactory path => files st !! path
  end.

Definition cache (factory : DatasetFactory) (dataset : list (KE * V)) (st : Storage)
    : Storage :=
  match factory with
  | MemoryCachingDatasetFactory => {| memory := Some dataset; files := files st |}
  | FileCachingDatasetFactory path =>
      {| memory := memory st; files := <[path := dataset]> (files st) |}
  end.

(** What the offline trainer does, in order: queries of the stop condition
    with their answers, bulk loads from the face, and calls on the
    module. *)
Inductive OfflineEvent : Type :=
| OffStop (satisfied : bool)
| OffScrap
| OffFit (batch : list V)
| OffStep.

Record OfflineRun : Type := mkOfflineRun {
  off_module : M;
  off_face : F;
  off_storage : Storage;
  off_state : TrainingState;
  off_log : list OfflineEvent
}.

Definition off_logged (ev : OfflineEvent) (r : OfflineRun) : OfflineRun :=
  {| off_module := off_module r; off_face := off_face r; off_storage := off_storage r;
     off_state := off_state r; off_log := off_log r ++ [ev] |}.

Definition off_with_module (m : M) (r : OfflineRun) : OfflineRun :=
  {| off_module := m; off_face := off_face r; off_storage := off_storage r;
     off_state := off_state r; off_log := off_log r |}.

Definition off_count_update (r : OfflineRun) : OfflineRun :=
  {| off_module := off_module r; off_face := off_face r; off_storage := off_storage r;
     off_state := {| epochs := epochs (off_state r); updates := S (updates (off_state r)) |};
     off_log := off_log r |}.

Definition off_count_epoch (r : OfflineRun) : OfflineRun :=
  {| off_module := off_module r; off_face := off_face r; off_storage := off_storage r;
     off_state := {| epochs := S (epochs (off_state r)); updates := updates (off_state r) |};
     off_log := off_log r |}.

(** Modelled from the spec: the dataset abstraction (its source is
    missing), which "wraps a bulk loader of historical posts" and caches
    "to avoid redundant refetching across training epochs": the posts
    come from the cache when it holds them, and from the face's scraping,
    which then fills the cache, when it does not. *)
Definition load_dataset (factory : DatasetFactory) (r : OfflineRun)
    : list (KE * V) * OfflineRun :=
  match cached factory (off_storage r) with
  | Some dataset => (dataset, r)
  | None =>
      let '(dataset, face') := face_scrap None (off_face r) in
      (dataset,
       {| off_module := off_module r; off_face := face';
          off_storage := cache factory dataset (off_storage r);
          off_state := off_state r; off_log := off_log r ++ [OffScrap] |})
  end.

(** The dataset a training call works on: the cached one if there is one,
    and what the face's scraping yields otherwise. *)
Definition first_dataset (factory : DatasetFactory) (face : F)
    (st : Storage) : list (KE * V) :=
  match cached factory st with
  | Some dataset => dataset
  | None => fst (face_scrap None face)
  end.

(** Modelled from the spec: one pass over the batches (the trainer's source
    is missing), a "fit on a batch, then step the model" cycle for each
    batch. An exception of the module ends the pass. *)
Fixpoint fit_batches (bs : list (list V)) (r : OfflineRun) : OfflineRun * option exn :=
  match bs with
  | [] => (r, None)
  | batch :: rest =>
      match offline_fit batch (off_module r) with
      | Raise e => (r, Some e)
      | Ok fitted =>
          let r1 := off_logged (OffFit batch) (off_with_module fitted r) in
          match offline_step fitted with
          | Raise e => (r1, Some e)
          | Ok stepped =>
              fit_batches rest
                (off_count_update (off_logged OffStep (off_with_module stepped r1)))
          end
      end
  end.

(** Modelled from the spec: the offline trainer's loop (its source is
    missing), which "drives repeated fit on a batch, then step the model
    cycles until a stop condition is satisfied". An iteration queries the
    stop condition once, and unless it is satisfied makes one pass
    (epoch) over the batches of the dataset. [fuel] bounds the number of
    iterations. *)
Fixpoint offline_loop (fuel : nat) (trainer : OfflineTrainer) (r : OfflineRun)
    : OfflineRun * ending :=
  match fuel with
  | O => (r, StillRunning)
  | S fuel' =>
      if stop_condition trainer (off_state r) then (off_logged (OffStop true) r, Returned)
      else
        let '(dataset, r1) :=
          load_dataset (dataset_factory (posts_loader trainer))
                       (off_logged (OffStop false) r) in
        match fit_batches (batches (batch_size (posts_loader trainer)) (map snd dataset)) r1 with
        | (r2, Some e) => (r2, Raised e)
        | (r2, None) => offline_loop fuel' trainer (off_count_epoch r2)
        end
  end.

(** Modelled from the spec: [train(module, face)] of the offline trainer
    (its source is missing). The trained module is [off_module] of the
    run when it ended with [Returned]. *)
Definition offline_train (fuel : nat) (trainer : OfflineTrainer)
    (module : M) (face : F) (st : Storage) : OfflineRun * ending :=
  offline_loop fuel trainer
    {| off_module := module; off_face := face; off_storage := st;
       off_state := {| epochs := 0; updates := 0 |}; off_log := [] |}.

(** The events of one epoch's fit and step calls. *)
Definition epoch_calls (bs : list (list V)) : list OfflineEvent :=
  concat (map (fun batch => [OffFit batch; OffStep]) bs).

(** The module calls of a log, in order. *)
Fixpoint offline_calls (log : list OfflineEvent) : list OfflineEvent :=
  match log with
  | [] => []
  | OffFit batch :: rest => OffFit batch :: offline_calls rest
  | OffStep :: rest => OffStep :: offline_calls rest
  | _ :: rest => offline_calls rest
  end.

(** The number of bulk loads in a log. *)
Fixpoint scrap_count (log : list OfflineEvent) : nat :=
  match log with
  | [] => O
  | OffScrap :: rest => S (scrap_count rest)
  | _ :: rest => scrap_count rest
  end.

(** The number of stop-condition queries in a log. *)
Fixpoint offline_query_count (log : list OfflineEvent) : nat :=
  match log with
  | [] => O
  | OffStop _ :: rest => S (offline_query_count rest)
  | _ :: rest => offline_query_count rest
  end.

(** Replaying the module calls of a log on a module. *)
Fixpoint offline_replay (log : list OfflineEvent) (m : M) : result M :=
  match log with
  | [] => Ok m
  | OffFit batch :: rest => m' ← offline_fit batch m; offline_replay rest m'
  | OffStep :: rest => m' ← offline_step m; offline_replay rest m'
  | _ :: rest => offline_replay rest m
  end.

End Offline.

(** ** The online trainer *)

(** Modelled from the spec: the online trainer's parts (their source is
    missing): a stop condition, a generator asking the module for
    [generator] posts per cycle ([PostGenerator(n)]) and a scheduler
    pacing the publication with a cooldown in seconds
    ([PostScheduler(timedelta)]). *)
Record OnlineTrainer : Type := mkOnlineTrainer {
  online_stop_condition : StopCondition;
  generator : nat;
  scheduler : Q
}.

Section Online.

Context {F M KE KI V : Type} `{EqDecision KI} `{Face F KE V} `{OnlineModule M KI V}.

(** What the trainer does, in order: queries of the stop condition with
    their answers, calls on the module, the scheduler's gate, and calls
    on the face with their results. *)
Inductive OnlineEvent : Type :=
| OnStop (satisfied : bool)
| OnSample (n : nat)
| OnWait (cooldown : Q)
| OnPost (content : V) (post_id : KE)
| OnScore (post_id : KE) (score : Q)
| OnFit (scores : list (KI * Q))
| OnStep.

Record OnlineRun : Type := mkOnlineRun {
  on_module : M;
  on_face : F;
  on_state : TrainingState;
  on_log : list OnlineEvent
}.

Definition on_logged (ev : OnlineEvent) (r : OnlineRun) : OnlineRun :=
  {| on_module := on_module r; on_face := on_face r; on_state := on_state r;
     on_log := on_log r ++ [ev] |}.

(** Modelled from the spec: the "publish them" stage of a cycle (its source
    is missing). Each content is posted to the face,
    and the identifier the face returns is kept next to the module's own
    identifier of the post. *)
Fixpoint publish (posts : list (KI * V)) (face : F) : list (KI * V * KE) * F :=
  match posts with
  | [] => ([], face)
  | (ki, content) :: rest =>
      let '(ke, face1) := face_post content face in
      let '(published, face2) := publish rest face1 in
      ((ki, content, ke) :: published, face2)
  end.

(** Modelled from the spec: the "collect scores" stage of a cycle (its
    source is missing): the score of every published post is asked of the
    face, up to the first exception. *)
Fixpoint collect (published : list (KI * V * KE)) (face : F)
    : list (KI * KE * Q) * option exn :=
  match published with
  | [] => ([], None)
  | (ki, _, ke) :: rest =>
      match face_score ke face with
      | Raise e => ([], Some e)
      | Ok score =>
          let '(scored, err) := collect rest face in
          ((ki, ke, score) :: scored, err)
      end
  end.

(** Modelled from the spec: the scores a cycle fits on (the trainer's source
    is missing), a dictionary keyed by the module's own identifiers, as
    [MyOnlineModule.fit] looks them up in the module's posts. *)
Definition scores_dict (scored : list (KI * KE * Q)) : list (KI * Q) :=
  fold_left (fun d '(ki, _, score) => dict_set ki score d) scored [].

Definition post_events (published : list (KI * V * KE)) : list OnlineEvent :=
  map (fun '(_, content, ke) => OnPost content ke) published.

Definition score_events (scored : list (KI * KE * Q)) : list OnlineEvent :=
  map (fun '(_, ke, score) => OnScore ke score) scored.

(** Modelled from the spec: one cycle of the online trainer (its source is
    missing): "generate candidate posts, publish them, collect scores,
    fit on scores, step the model", "gated by a scheduler controlling
    pacing". The gate is passed once per cycle, before the posts are
    published. An exception of the module or of the face ends the
    cycle. *)
Definition online_cycle (trainer : OnlineTrainer) (r : OnlineRun)
    : OnlineRun * option exn :=
  let '(posts, sampled) := online_sample (generator trainer) (on_module r) in
  let '(published, face') := publish posts (on_face r) in
  let '(scored, err) := collect published face' in
  let log1 := on_log r ++ [OnSample (generator trainer); OnWait (scheduler trainer)]
                ++ post_events published ++ score_events scored in
  match err with
  | Some e =>
      ({| on_module := sampled; on_face := face'; on_state := on_state r;
          on_log := log1 |}, Some e)
  | None =>
      match online_fit (scores_dict scored) sampled with
      | Raise e =>
          ({| on_module := sampled; on_face := face'; on_state := on_state r;
              on_log := log1 |}, Some e)
      | Ok fitted =>
          match online_step fitted with
          | Raise e =>
              ({| on_module := fitted; on_face := face'; on_state := on_state r;
                  on_log := log1 ++ [OnFit (scores_dict scored)] |}, Some e)
          | Ok stepped =>
              ({| on_module := stepped; on_face := face';
                  on_state := {| epochs := epochs (on_state r);
                                 updates := S (updates (on_state r)) |};
                  on_log := log1 ++ [OnFit (scores_dict scored); OnStep] |}, None)
          end
      end
  end.

(** Modelled from the spec: the online trainer's loop (its source is
    missing), which repeats the cycle "until a stop condition is
    satisfied", the condition being "queried once per training
    iteration". [fuel] bounds the number of iterations. *)
Fixpoint online_loop (fuel : nat) (trainer : OnlineTrainer) (r : OnlineRun)
    : OnlineRun * ending :=
  match fuel with
  | O => (r, StillRunning)
  | S fuel' =>
      if online_stop_condition trainer (on_state r)
      then (on_logged (OnStop true) r, Returned)
      else
        match online_cycle trainer (on_logged (OnStop false) r) with
        | (r', Some e) => (r', Raised e)
        | (r', None) => online_loop fuel' trainer r'
        end
  end.

(** Modelled from the spec: [train(module, face)] of the online trainer
    (its source is missing). The trained module is [on_module] of the run
    when it ended with [Returned]. *)
Definition online_train (fuel : nat) (trainer : OnlineTrainer) (module : M) (face : F)
    : OnlineRun * ending :=
  online_loop fuel trainer
    {| on_module := module; on_face := face;
       on_state := {| epochs := 0; updates := 0 |}; on_log := [] |}.

(** The events of one completed iteration: the stop condition answers
    no, the module samples, the scheduler's gate is passed, the posts are
    published, their scores collected, and the module fits and steps. *)
Definition cycle_events (trainer : OnlineTrainer)
    (published : list (KI * V * KE)) (scored : list (KI * KE * Q)) : list OnlineEvent :=
  [OnStop false; OnSample (generator trainer); OnWait (scheduler trainer)]
    ++ post_events published ++ score_events scored
    ++ [OnFit (scores_dict scored); OnStep].

(** The number of stop-condition queries in a log. *)
Fixpoint online_query_count (log : list OnlineEvent) : nat :=
  match log with
  | [] => O
  | OnStop _ :: rest => S (online_query_count rest)
  | _ :: rest => online_query_count rest
  end.

(** Replaying the module calls of a log on a module. *)
Fixpoint online_replay (log : list OnlineEvent) (m : M) : result M :=
  match log with
  | [] => Ok m
  | OnSample n :: rest => online_replay rest (snd (online_sample n m))
  | OnFit scores :: rest => m' ← online_fit scores m; online_replay rest m'
  | OnStep :: rest => m' ← online_step m; online_replay rest m'
  | _ :: rest => online_replay rest m
  end.

End Online.

(** ** What a completed online iteration does

    The iterations of the online trainer described by what is done to the
    module and to the face, apart from the trainer's own code: the
    statement about the trainer compares its log and its final module and
    face with this description. *)

Section OnlineIterations.

Context {F M KE KI V : Type} `{EqDecision KI} `{Face F KE V} `{OnlineModule M KI V}.

(** Modelled from the spec: "publish them". [published_by face posts
    published face'] says that every candidate post, in order, was
    posted to the face with [face.post], each call working on the face as
    the call before left it, and that [published] pairs each post with
    the identifier the face returned for it. *)
Inductive published_by : F -> list (KI * V) -> list (KI * V * KE) -> F -> Prop :=
| published_nil (face : F) : published_by face [] [] face
| published_cons (face face1 face2 : F) (ki : KI) (content : V) (ke : KE)
    (posts : list (KI * V)) (published : list (KI * V * KE)) :
    face_post content face = (ke, face1) ->
    published_by face1 posts published face2 ->
    published_by face ((ki, content) :: posts) ((ki, content, ke) :: published) face2.

(** Modelled from the spec: "collect scores". [scored_by face published
    scored] says that [scored] gives, for every published post in order,
    the score [face.score] returns for the identifier the face gave
    it. *)
Inductive scored_by (face : F) : list (KI * V * KE) -> list (KI * KE * Q) -> Prop :=
| scored_nil : scored_by face [] []
| scored_cons (ki : KI) (content : V) (ke : KE) (score : Q)
    (published : list (KI * V * KE)) (scored : list (KI * KE * Q)) :
    face_score ke face = Ok score ->
    scored_by face published scored ->
    scored_by face ((ki, content, ke) :: published) ((ki, ke, score) :: scored).

(** The score collected last for the module's identifier [ki]. *)
Definition last_score (ki : KI) (scored : list (KI * KE * Q)) : option Q :=
  fold_left (fun acc '(k, _, score) => if decide (k = ki) then Some score else acc)
            scored None.

(** Modelled from the spec: "fit on scores". [scores] is the dictionary of
    the collected scores keyed by the module's identifiers: no key
    twice, an entry for exactly the identifiers that were scored, each
    with the score collected last for it; and when no identifier was
    scored twice, the entries are the collected scores in their order. *)
Definition is_scores_dict (scored : list (KI * KE * Q)) (scores : list (KI * Q)) : Prop :=
  NoDup scores.*1 /\
  (forall (ki : KI) (score : Q),
      (ki, score) ∈ scores <-> last_score ki scored = Some score) /\
  (NoDup (map (fun '(ki, _, _) => ki) scored) ->
   scores = map (fun '(ki, _, score) => (ki, score)) scored).

(** Modelled from the spec: [n] iterations of "generate candidate posts,
    publish them, collect scores, fit on scores, step the model", "gated
    by a scheduler". [online_iterations trainer n module face log
    module' face'] says that [log] is the log of [n] iterations that
    start with [module] and [face] and end with [module'] and [face'].
    In each iteration the stop condition is queried and not satisfied;
    the module as it then is samples the generator's number of posts; the
    scheduler's gate is passed; all sampled posts are published on the
    face as it then is; their scores are collected from the face as
    publishing left it; the module that sampled fits on the dictionary of
    these scores, and the fitted module steps. The next iteration starts
    with the stepped module and the face as publishing left it. *)
Inductive online_iterations (trainer : OnlineTrainer)
    : nat -> M -> F -> list OnlineEvent -> M -> F -> Prop :=
| iterations_none (module : M) (face : F) :
    online_iterations trainer 0 module face [] module face
| iterations_one_more (n : nat) (module sampled fitted stepped module' : M)
    (face face1 face' : F) (posts : list (KI * V))
    (published : list (KI * V * KE)) (scored : list (KI * KE * Q))
    (scores : list (KI * Q)) (log : list OnlineEvent) :
    online_sample (generator trainer) module = (posts, sampled) ->
    published_by face posts published face1 ->
    scored_by face1 published scored ->
    is_scores_dict scored scores ->
    online_fit scores sampled = Ok fitted ->
    online_step fitted = Ok stepped ->
    online_iterations trainer n stepped face1 log module' face' ->
    online_iterations trainer (S n) module face
      ([OnStop false; OnSample (generator trainer); OnWait (scheduler trainer)]
         ++ map (fun '(_, content, ke) => OnPost content ke) published
         ++ map (fun '(_, ke, score) => OnScore ke score) scored
         ++ [OnFit scores; OnStep] ++ log)
      module' face'.

End OnlineIterations.

(** ** The demonstrated setup *)


(** [OnlineTrainer(stop_condition=MaxUpdates(100), generator=
    PostGenerator(10), scheduler=PostScheduler(timedelta(seconds=0)))] *)
Definition online_trainer : OnlineTrainer :=
  {| online_stop_condition := MaxUpdates 100; generator := 10; scheduler := 0%Q |}.

(** ** Auxiliary notions for the statements and proofs *)

(** The pair [scrap] yields for index [i]. *)
Definition scrap_item (i : Z) : Z * bool := (i, i mod 3 =? 0).

(** Every entry of a content-keyed dictionary carries the score
    [MyFace.score] gives to its key. *)
Definition scored_by_content (d : list (bool * Q)) : Prop :=
  Forall (fun '(x, score) => score = inject_Z (int x * 2 - 1)) d.

(** Equality of two triples that agree on their last component. *)
Ltac split_triple :=
  match goal with
  | |- (?a, ?b, ?c) = (?a', ?b', ?c) =>
      let Ha := fresh in let Hb := fresh in
      assert (Ha : a = a'); [| assert (Hb : b = b'); [| now rewrite Ha, Hb]]
  end.

(** Equality of two lists up to the bracketing of their concatenations. *)
Ltac list_assoc :=
  repeat (rewrite <- ?app_assoc; simpl); reflexivity.

(** ** The generator of [MyOnlineModule.sample]

    [sample(n)] is a generator: its body runs as the consumer asks for
    items, and the index is advanced only when the generator is resumed
    after a [yield]. *)

(** [SampleCreated drawn] is the generator before its first item was asked
    for, [drawn] being what [random.choices] will return; [SampleYielded
    rest] is the generator suspended at [yield], with [rest] the posts
    still to come; [SampleFinished] is the exhausted generator. *)
Inductive sample_gen : Type :=
| SampleCreated (drawn : list bool)
| SampleYielded (rest : list bool)
| SampleFinished.

(** [self.posts[self.i] = post] *)
Definition sample_store (post : bool) (self : MyOnlineModule.t) : MyOnlineModule.t :=
  {| MyOnlineModule.deltas := MyOnlineModule.deltas self;
     MyOnlineModule.alpha := MyOnlineModule.alpha self;
     MyOnlineModule.posts :=
       <[MyOnlineModule.i self := post]> (MyOnlineModule.posts self);
     MyOnlineModule.i := MyOnlineModule.i self |}.

(** [self.i += 1] *)
Definition sample_resume (self : MyOnlineModule.t) : MyOnlineModule.t :=
  {| MyOnlineModule.deltas := MyOnlineModule.deltas self;
     MyOnlineModule.alpha := MyOnlineModule.alpha self;
     MyOnlineModule.posts := MyOnlineModule.posts self;
     MyOnlineModule.i := MyOnlineModule.i self + 1 |}.

(** One turn of [for post in posts]: store the post under the index and
    yield it, or finish. *)
Definition sample_loop (posts : list bool) (self : MyOnlineModule.t)
    : option (Z * bool) * sample_gen * MyOnlineModule.t :=
  match posts with
  | [] => (None, SampleFinished, self)
  | post :: rest =>
      (Some (MyOnlineModule.i self, post), SampleYielded rest, sample_store post self)
  end.

(** Asking the generator for its next item ([None]: StopIteration).
    Resumed after a [yield], it first runs [self.i += 1]. *)
Definition sample_next (g : sample_gen) (self : MyOnlineModule.t)
    : option (Z * bool) * sample_gen * MyOnlineModule.t :=
  match g with
  | SampleCreated drawn => sample_loop drawn self
  | SampleYielded rest => sample_loop rest (sample_resume self)
  | SampleFinished => (None, SampleFinished, self)
  end.

(** The items obtained by asking at most [pulls] times. *)
Fixpoint sample_take (pulls : nat) (g : sample_gen) (self : MyOnlineModule.t)
    : list (Z * bool) * sample_gen * MyOnlineModule.t :=
  match pulls with
  | O => ([], g, self)
  | S pulls' =>
      match sample_next g self with
      | (None, g', self') => ([], g', self')
      | (Some item, g', self') =>
          let '(items, g'', self'') := sample_take pulls' g' self' in
          (item :: items, g'', self'')
      end
  end.

(** The contents of the posts a dictionary of scores refers to, in
    iteration order, for the identifiers the module knows. *)
Definition scored_contents (posts : gmap Z bool) (scores : list (Z * Q)) : list bool :=
  omap (fun '(post_id, _) => posts !! post_id) scores.

(** The number of [True] posts of a batch. *)
Definition count_true (posts : list bool) : Z :=
  len (filter (fun post => post = true) posts).

(** * Properties *)

(** ** Numbers *)

Lemma Qltb_true (a b : Q) : Qltb a b = true <-> (a < b)%Q.
Proof.
  unfold Qltb. rewrite negb_true_iff, <- not_true_iff_false, Qle_bool_iff.
  split; [apply Qnot_le_lt | apply Qlt_not_le].
Qed.

Lemma Qltb_false (a b : Q) : Qltb a b = false <-> (b <= a)%Q.
Proof.
  unfold Qltb. rewrite negb_false_iff. apply Qle_bool_iff.
Qed.

Lemma py_min_le_r (a b : Q) : (py_min a b <= b)%Q.
Proof.
  unfold py_min. destruct (Qltb b a) eqn:E; [lra |].
  apply Qltb_false in E. exact E.
Qed.

Lemma py_min_ge (a b c : Q) : (c <= a)%Q -> (c <= b)%Q -> (c <= py_min a b)%Q.
Proof. unfold py_min. destruct (Qltb b a); auto. Qed.

Lemma py_max_ge_r (a b : Q) : (b <= py_max a b)%Q.
Proof.
  unfold py_max. destruct (Qltb a b) eqn:E; [lra |].
  apply Qltb_false in E. exact E.
Qed.

Lemma py_max_ge_l (a b : Q) : (a <= py_max a b)%Q.
Proof.
  unfold py_max. destruct (Qltb a b) eqn:E; [| lra].
  apply Qltb_true in E. lra.
Qed.

Lemma py_max_le (a b c : Q) : (a <= c)%Q -> (b <= c)%Q -> (py_max a b <= c)%Q.
Proof. unfold py_max. destruct (Qltb a b); auto. Qed.

Lemma set_p_bounds (value : Q) (self : Model.t) :
  (0 <= Model.p (Model.set_p value self) <= 1)%Q.
Proof.
  unfold Model.set_p, Model.p. simpl. split.
  - apply py_max_ge_r.
  - apply py_max_le; [apply py_min_le_r | lra].
Qed.

Lemma set_p_ge (value q : Q) (self : Model.t) :
  (q <= value)%Q -> (q <= 1)%Q -> (q <= Model.p (Model.set_p value self))%Q.
Proof.
  intros Hv H1. unfold Model.set_p, Model.p. simpl.
  eapply Qle_trans; [| apply py_max_ge_l]. now apply py_min_ge.
Qed.

Lemma fold_left_Qplus_nonneg (l : list Q) (acc : Q) :
  (0 <= acc)%Q -> Forall (Qle 0) l -> (0 <= fold_left Qplus l acc)%Q.
Proof.
  revert acc. induction l as [|x l IH]; intros acc Hacc Hl; simpl; [exact Hacc |].
  inversion Hl; subst. apply IH; [lra | assumption].
Qed.

Lemma py_sum_nonneg (l : list Q) : Forall (Qle 0) l -> (0 <= py_sum l)%Q.
Proof. intros H. apply fold_left_Qplus_nonneg; [lra | exact H]. Qed.

Lemma len_nil_iff {A : Type} (l : list A) : len l = 0 <-> l = [].
Proof. unfold len. destruct l; simpl; split; intros; (congruence || lia). Qed.

Lemma len_pos {A : Type} (l : list A) : l <> [] -> 0 < len l.
Proof. unfold len. destruct l; simpl; [congruence | lia]. Qed.

Lemma py_div_ok (a : Q) (n : Z) : n <> 0 -> py_div a n = Ok (a / inject_Z n)%Q.
Proof. intros Hn. unfold py_div. apply Z.eqb_neq in Hn. now rewrite Hn. Qed.

Lemma Qdiv_nonneg (a : Q) (n : Z) : (0 <= a)%Q -> 0 < n -> (0 <= a / inject_Z n)%Q.
Proof.
  intros Ha Hn. unfold Qdiv. apply Qmult_le_0_compat; [exact Ha |].
  apply Qinv_le_0_compat. unfold Qle, inject_Z. simpl. lia.
Qed.

Lemma mean_raises_iff (it : list Q) : mean it = Raise ZeroDivisionError <-> it = [].
Proof.
  unfold mean, py_div. rewrite <- len_nil_iff.
  destruct (len it =? 0) eqn:E.
  - apply Z.eqb_eq in E. tauto.
  - apply Z.eqb_neq in E. split; [discriminate | tauto].
Qed.

Lemma mean_ok (it : list Q) :
  it <> [] -> mean it = Ok (py_sum it / inject_Z (len it))%Q.
Proof. intros H. apply py_div_ok. rewrite len_nil_iff. exact H. Qed.

Lemma mean_nonneg (it : list Q) (m : Q) :
  Forall (Qle 0) it -> mean it = Ok m -> (0 <= m)%Q.
Proof.
  intros Hall Hm. destruct it as [|x it'].
  - discriminate Hm.
  - rewrite mean_ok in Hm by discriminate. injection Hm as <-.
    apply Qdiv_nonneg; [now apply py_sum_nonneg | now apply len_pos].
Qed.

(** ** The steps of the two modules *)

Lemma offline_step_inv (self self' : MyOfflineModule.t) (model model' : Model.t) :
  MyOfflineModule.step self model = Ok (self', model') ->
  exists m, mean (MyOfflineModule.deltas self) = Ok m /\
    self' = {| MyOfflineModule.deltas := []; MyOfflineModule.alpha := MyOfflineModule.alpha self |} /\
    model' = Model.set_p (Model.p model + MyOfflineModule.alpha self * m)%Q model.
Proof.
  unfold MyOfflineModule.step. destruct (mean _) as [m|e]; simpl; [| discriminate].
  intros [= <- <-]. now exists m.
Qed.

Lemma online_step_inv (self self' : MyOnlineModule.t) (model model' : Model.t) :
  MyOnlineModule.step self model = Ok (self', model') ->
  exists m, mean (MyOnlineModule.deltas self) = Ok m /\
    self' = {| MyOnlineModule.deltas := []; MyOnlineModule.alpha := MyOnlineModule.alpha self;
               MyOnlineModule.posts := MyOnlineModule.posts self;
               MyOnlineModule.i := MyOnlineModule.i self |} /\
    model' = Model.set_p (Model.p model + MyOnlineModule.alpha self * m)%Q model.
Proof.
  unfold MyOnlineModule.step. destruct (mean _) as [m|e]; simpl; [| discriminate].
  intros [= <- <-]. now exists m.
Qed.

Lemma offline_step_raises (self : MyOfflineModule.t) (model : Model.t) :
  MyOfflineModule.step self model = Raise ZeroDivisionError <->
  MyOfflineModule.deltas self = [].
Proof.
  rewrite <- mean_raises_iff. unfold MyOfflineModule.step.
  destruct (mean _) as [m|e]; simpl; split; intros H; try discriminate;
    injection H as ->; reflexivity.
Qed.

Lemma online_step_raises (self : MyOnlineModule.t) (model : Model.t) :
  MyOnlineModule.step self model = Raise ZeroDivisionError <->
  MyOnlineModule.deltas self = [].
Proof.
  rewrite <- mean_raises_iff. unfold MyOnlineModule.step.
  destruct (mean _) as [m|e]; simpl; split; intros H; try discriminate;
    injection H as ->; reflexivity.
Qed.

Lemma offline_fit_deltas (posts : list bool) (self self' : MyOfflineModule.t) (model : Model.t) :
  MyOfflineModule.fit posts self model = Ok self' ->
  length (MyOfflineModule.deltas self') = S (length (MyOfflineModule.deltas self)).
Proof.
  unfold MyOfflineModule.fit. destruct (py_div _ _) as [q|e]; simpl; [| discriminate].
  intros [= <-]. simpl. rewrite length_app. simpl. lia.
Qed.

Lemma online_fit_deltas (scores : list (Z * Q)) (self self' : MyOnlineModule.t) (model : Model.t) :
  MyOnlineModule.fit scores self model = Ok self' ->
  length (MyOnlineModule.deltas self') = S (length (MyOnlineModule.deltas self)).
Proof.
  unfold MyOnlineModule.fit. destruct (MyOnlineModule.by_content _ _ _) as [d|e]; simpl; [| discriminate].
  destruct (py_div _ _) as [q|e]; simpl; [| discriminate].
  intros [= <-]. simpl. rewrite length_app. simpl. lia.
Qed.

Lemma online_sample_deltas (drawn : list bool) (self : MyOnlineModule.t) :
  MyOnlineModule.deltas (snd (MyOnlineModule.sample drawn self)) = MyOnlineModule.deltas self.
Proof.
  revert self. induction drawn as [|x drawn IH]; intros self; simpl; [reflexivity |].
  match goal with |- context [MyOnlineModule.sample drawn ?s] =>
    specialize (IH s); destruct (MyOnlineModule.sample drawn s) as [items self'] end.
  simpl in *. exact IH.
Qed.

(** The pending-fit counters agree with the lengths of the two [deltas]
    lists along every run that raised nothing. *)
Lemma pending_fits_counted (cs : list call) :
  forall (nb nb' : Notebook),
    calls_run cs nb = (nb', None) ->
    length (MyOfflineModule.deltas (offline_module nb')) =
      offline_fits_pending (length (MyOfflineModule.deltas (offline_module nb))) cs /\
    length (MyOnlineModule.deltas (online_module nb')) =
      online_fits_pending (length (MyOnlineModule.deltas (online_module nb))) cs.
Proof.
  induction cs as [|c cs IH]; intros nb nb' Hrun; simpl in Hrun.
  - injection Hrun as <-. now split.
  - destruct (call_run c nb) as [nb1|e] eqn:Hc; [| discriminate].
    specialize (IH _ _ Hrun). destruct IH as [IHoff IHon].
    destruct c; simpl in Hc |- *.
    + destruct (MyOfflineModule.fit _ _ _) as [s|e] eqn:Hf; simpl in Hc; [| discriminate].
      injection Hc as <-. simpl in *. apply offline_fit_deltas in Hf.
      rewrite <- Hf. now split.
    + destruct (MyOfflineModule.step _ _) as [[s m]|e] eqn:Hs; simpl in Hc; [| discriminate].
      injection Hc as <-. simpl in *.
      apply offline_step_inv in Hs. destruct Hs as (q & _ & -> & _). now split.
    + destruct (MyOnlineModule.sample _ _) as [items s] eqn:Hs.
      injection Hc as <-. simpl in *.
      pose proof (online_sample_deltas drawn (online_module nb)) as Hd.
      rewrite Hs in Hd. simpl in Hd. rewrite Hd in IHon. now split.
    + destruct (MyOnlineModule.fit _ _ _) as [s|e] eqn:Hf; simpl in Hc; [| discriminate].
      injection Hc as <-. simpl in *. apply online_fit_deltas in Hf.
      rewrite <- Hf. now split.
    + destruct (MyOnlineModule.step _ _) as [[s m]|e] eqn:Hs; simpl in Hc; [| discriminate].
      injection Hc as <-. simpl in *.
      apply online_step_inv in Hs. destruct Hs as (q & _ & -> & _). now split.
Qed.

(** The model's parameter after one call is in the unit interval when it
    was before the call. *)
Lemma call_run_unit (c : call) (nb nb' : Notebook) :
  (0 <= Model.p (model nb) <= 1)%Q ->
  call_run c nb = Ok nb' ->
  (0 <= Model.p (model nb') <= 1)%Q.
Proof.
  intros Hp Hc. destruct c; simpl in Hc.
  - destruct (MyOfflineModule.fit _ _ _); simpl in Hc; [| discriminate].
    injection Hc as <-. exact Hp.
  - destruct (MyOfflineModule.step _ _) as [[s m]|e] eqn:Hs; simpl in Hc; [| discriminate].
    injection Hc as <-. simpl.
    apply offline_step_inv in Hs. destruct Hs as (q & _ & _ & ->). apply set_p_bounds.
  - destruct (MyOnlineModule.sample _ _). injection Hc as <-. exact Hp.
  - destruct (MyOnlineModule.fit _ _ _); simpl in Hc; [| discriminate].
    injection Hc as <-. exact Hp.
  - destruct (MyOnlineModule.step _ _) as [[s m]|e] eqn:Hs; simpl in Hc; [| discriminate].
    injection Hc as <-. simpl.
    apply online_step_inv in Hs. destruct Hs as (q & _ & _ & ->). apply set_p_bounds.
Qed.

Lemma calls_run_unit (cs : list call) :
  forall nb : Notebook,
    (0 <= Model.p (model nb) <= 1)%Q ->
    (0 <= Model.p (model (fst (calls_run cs nb))) <= 1)%Q.
Proof.
  induction cs as [|c cs IH]; intros nb Hp; simpl; [exact Hp |].
  destruct (call_run c nb) as [nb'|e] eqn:Hc; simpl; [| exact Hp].
  apply IH. eapply call_run_unit; eassumption.
Qed.

(** C9: the model parameter stays in [0, 1]. The setter stores a value of
    the unit interval whatever it is given; the model the notebook
    constructs starts at 0.5; and after every sequence of [fit], [sample]
    and [step] calls on the two modules of the notebook, in any order and
    up to the first exception if one is raised, the stored parameter is
    in the unit interval. *)
Theorem model_p_in_unit_interval :
  (forall (value : Q) (self : Model.t),
      (0 <= Model.p (Model.set_p value self) <= 1)%Q) /\
  (0 <= Model.p (Model.init None) <= 1)%Q /\
  (forall cs : list call,
      (0 <= Model.p (model (fst (calls_run cs setup))) <= 1)%Q).
Proof.
  split; [exact set_p_bounds |].
  assert (H0 : (0 <= Model.p (Model.init None) <= 1)%Q).
  { unfold Model.init, Model.p. simpl. lra. }
  split; [exact H0 |].
  intros cs. apply calls_run_unit. exact H0.
Qed.

(** C10: [step] of either module raises ZeroDivisionError exactly when its
    [deltas] list is empty; with a non-empty list it succeeds, the
    returned module is the same module with [deltas] reset to the empty
    list, and along any run of calls on the notebook's modules that
    raised nothing, the list is empty exactly when no [fit] call was made
    since the module's previous [step]. *)
Theorem step_raises_iff_no_fit_since_step :
  (forall (self : MyOfflineModule.t) (model : Model.t),
      (MyOfflineModule.step self model = Raise ZeroDivisionError <->
       MyOfflineModule.deltas self = []) /\
      (MyOfflineModule.deltas self <> [] ->
       exists model',
         MyOfflineModule.step self model =
         Ok ({| MyOfflineModule.deltas := [];
                MyOfflineModule.alpha := MyOfflineModule.alpha self |}, model'))) /\
  (forall (self : MyOnlineModule.t) (model : Model.t),
      (MyOnlineModule.step self model = Raise ZeroDivisionError <->
       MyOnlineModule.deltas self = []) /\
      (MyOnlineModule.deltas self <> [] ->
       exists model',
         MyOnlineModule.step self model =
         Ok ({| MyOnlineModule.deltas := [];
                MyOnlineModule.alpha := MyOnlineModule.alpha self;
                MyOnlineModule.posts := MyOnlineModule.posts self;
                MyOnlineModule.i := MyOnlineModule.i self |}, model'))) /\
  (forall (cs : list call) (nb : Notebook),
      calls_run cs setup = (nb, None) ->
      (MyOfflineModule.step (offline_module nb) (model nb) = Raise ZeroDivisionError <->
       offline_fits_pending 0 cs = 0%nat) /\
      (MyOnlineModule.step (online_module nb) (model nb) = Raise ZeroDivisionError <->
       online_fits_pending 0 cs = 0%nat)).
Proof.
  split; [| split].
  - intros self model. split; [apply offline_step_raises |].
    intros Hne. unfold MyOfflineModule.step. rewrite mean_ok by exact Hne.
    simpl. eexists. reflexivity.
  - intros self model. split; [apply online_step_raises |].
    intros Hne. unfold MyOnlineModule.step. rewrite mean_ok by exact Hne.
    simpl. eexists. reflexivity.
  - intros cs nb Hrun. apply pending_fits_counted in Hrun. simpl in Hrun.
    destruct Hrun as [Hoff Hon].
    rewrite offline_step_raises, online_step_raises, <- Hoff, <- Hon.
    split; split; intros H; try (rewrite H; reflexivity);
      now apply length_zero_iff_nil.
Qed.

(** One fit and one step of the offline module, then one fit of the online
    module on a sampled post: the offline module has no fit pending and
    its step would raise; the online module has one pending and its step
    would not. *)
Lemma step_raises_iff_no_fit_since_step_witness :
  let cs := [OfflineFit [true]; OfflineStep; OnlineSample [true];
             OnlineFit [(0, inject_Z 1)]] in
  let nb := fst (calls_run cs setup) in
  (MyOfflineModule.step (offline_module nb) (model nb) = Raise ZeroDivisionError <->
   offline_fits_pending 0 cs = 0%nat) /\
  (MyOnlineModule.step (online_module nb) (model nb) = Raise ZeroDivisionError <->
   online_fits_pending 0 cs = 0%nat).
Proof.
  apply (proj2 (proj2 step_raises_iff_no_fit_since_step)
           [OfflineFit [true]; OfflineStep; OnlineSample [true];
            OnlineFit [(0, inject_Z 1)]]).
  vm_compute. reflexivity.
Defined.

(** ** Online fitting under the demonstrated scoring *)

Lemma dict_set_scored (x : bool) (score : Q) (d : list (bool * Q)) :
  score = inject_Z (int x * 2 - 1) ->
  scored_by_content d -> scored_by_content (dict_set x score d).
Proof.
  intros Hs. unfold scored_by_content.
  induction d as [|[k v] d IH]; intros Hd; simpl.
  - constructor; [exact Hs | constructor].
  - inversion Hd; subst. destruct (decide (x = k)); constructor; auto.
Qed.

Lemma dict_set_not_nil {K V : Type} `{EqDecision K} (k : K) (v : V) (d : list (K * V)) :
  dict_set k v d <> [].
Proof. destruct d as [|[k' v'] d]; simpl; [| destruct (decide (k = k'))]; discriminate. Qed.

Lemma by_content_demonstrated (posts : gmap Z bool) (scores : list (Z * Q)) :
  forall acc : list (bool * Q),
    demonstrated_scoring posts scores ->
    scored_by_content acc ->
    (scores <> [] \/ acc <> []) ->
    exists d, MyOnlineModule.by_content posts scores acc = Ok d /\
              scored_by_content d /\ d <> [].
Proof.
  induction scores as [|[post_id score] scores IH]; intros acc Hdemo Hacc Hne; simpl.
  - exists acc. destruct Hne as [Hne|Hne]; [congruence | auto].
  - unfold demonstrated_scoring in Hdemo.
    inversion Hdemo as [|? ? Hhd Hrest]; subst.
    destruct Hhd as (x & Hx & Hscore).
    rewrite Hx. apply IH.
    + exact Hrest.
    + now apply dict_set_scored.
    + right. apply dict_set_not_nil.
Qed.

(** A post's contribution to the delta under the demonstrated scoring. *)
Lemma contribution_nonneg (p : Q) (d : list (bool * Q)) :
  (0 <= p <= 1)%Q ->
  scored_by_content d ->
  Forall (Qle 0) (map (fun '(x, score) => ((inject_Z (int x) - p) * score)%Q) d).
Proof.
  intros Hp Hd. induction Hd as [|[x score] d Hx Hd IH]; simpl; constructor; auto.
  subst score. destruct x; cbn [int].
  - change (inject_Z (1 * 2 - 1)) with 1%Q. change (inject_Z 1) with 1%Q. lra.
  - change (inject_Z (0 * 2 - 1)) with (-1 # 1)%Q. change (inject_Z 0) with 0%Q. lra.
Qed.

Lemma online_fit_demonstrated (scores : list (Z * Q)) (self : MyOnlineModule.t)
    (model : Model.t) :
  (0 <= Model.p model <= 1)%Q ->
  demonstrated_scoring (MyOnlineModule.posts self) scores ->
  scores <> [] ->
  exists delta,
    MyOnlineModule.fit scores self model =
      Ok {| MyOnlineModule.deltas := MyOnlineModule.deltas self ++ [delta];
            MyOnlineModule.alpha := MyOnlineModule.alpha self;
            MyOnlineModule.posts := MyOnlineModule.posts self;
            MyOnlineModule.i := MyOnlineModule.i self |} /\
    (0 <= delta)%Q.
Proof.
  intros Hp Hdemo Hne.
  destruct (by_content_demonstrated _ scores [] Hdemo) as (d & Hd & Hsc & Hdne);
    [constructor | now left |].
  unfold MyOnlineModule.fit. rewrite Hd. simpl.
  rewrite py_div_ok by (rewrite len_nil_iff; exact Hdne). simpl.
  eexists. split; [reflexivity |].
  apply Qdiv_nonneg; [| now apply len_pos].
  apply py_sum_nonneg. now apply contribution_nonneg.
Qed.

Lemma online_step_monotone (self self' : MyOnlineModule.t) (model model' : Model.t) :
  (0 <= Model.p model <= 1)%Q ->
  (0 <= MyOnlineModule.alpha self)%Q ->
  Forall (Qle 0) (MyOnlineModule.deltas self) ->
  MyOnlineModule.step self model = Ok (self', model') ->
  (Model.p model <= Model.p model' <= 1)%Q.
Proof.
  intros Hp Ha Hd Hs. apply online_step_inv in Hs.
  destruct Hs as (m & Hm & _ & ->). split; [| apply set_p_bounds].
  apply set_p_ge; [| lra].
  pose proof (mean_nonneg _ _ Hd Hm) as Hm0.
  pose proof (Qmult_le_0_compat _ _ Ha Hm0). lra.
Qed.

(** C7: under the demonstrated scoring the online parameter never
    decreases. For a module whose model parameter is in [0, 1], whose
    step size is not negative and whose accumulated deltas are not
    negative: [fit] on a non-empty dictionary of scores given as
    [MyFace.score] gives them appends one delta, and that delta is not
    negative; [step] after it succeeds; and every successful [step]
    leaves a parameter that is at least the previous one and at most 1. *)
Theorem online_p_never_decreases
    (self : MyOnlineModule.t) (model : Model.t) (scores : list (Z * Q)) :
  (0 <= Model.p model <= 1)%Q ->
  (0 <= MyOnlineModule.alpha self)%Q ->
  Forall (Qle 0) (MyOnlineModule.deltas self) ->
  demonstrated_scoring (MyOnlineModule.posts self) scores ->
  scores <> [] ->
  (forall self' model',
      MyOnlineModule.step self model = Ok (self', model') ->
      (Model.p model <= Model.p model' <= 1)%Q) /\
  exists delta fitted stepped model',
    MyOnlineModule.fit scores self model = Ok fitted /\
    MyOnlineModule.deltas fitted = MyOnlineModule.deltas self ++ [delta] /\
    (0 <= delta)%Q /\
    MyOnlineModule.step fitted model = Ok (stepped, model') /\
    MyOnlineModule.deltas stepped = [] /\
    (Model.p model <= Model.p model' <= 1)%Q.
Proof.
  intros Hp Ha Hd Hdemo Hne. split.
  - intros self' model'. now apply online_step_monotone.
  - destruct (online_fit_demonstrated scores self model Hp Hdemo Hne)
      as (delta & Hfit & Hdelta).
    set (fitted := {| MyOnlineModule.deltas := MyOnlineModule.deltas self ++ [delta];
                      MyOnlineModule.alpha := MyOnlineModule.alpha self;
                      MyOnlineModule.posts := MyOnlineModule.posts self;
                      MyOnlineModule.i := MyOnlineModule.i self |}) in *.
    destruct (MyOnlineModule.step fitted model) as [[stepped model']|e] eqn:Hstep.
    + exists delta, fitted, stepped, model'.
      repeat split; try assumption; try reflexivity.
      * apply online_step_inv in Hstep. now destruct Hstep as (m & _ & -> & _).
      * eapply (online_step_monotone fitted); [exact Hp | exact Ha | | exact Hstep].
        simpl. apply Forall_app. split; [exact Hd | now constructor].
      * eapply (online_step_monotone fitted); [exact Hp | exact Ha | | exact Hstep].
        simpl. apply Forall_app. split; [exact Hd | now constructor].
    + exfalso. unfold MyOnlineModule.step in Hstep.
      rewrite mean_ok in Hstep; [discriminate |].
      simpl. destruct (MyOnlineModule.deltas self); discriminate.
Qed.

(** One cycle of the notebook's setting: two posts sampled, one of each
    content, scored +1 and -1. *)
Lemma online_p_never_decreases_witness :
  let self := snd (MyOnlineModule.sample [true; false] (MyOnlineModule.init None)) in
  let model := Model.init None in
  let scores := [(0, inject_Z 1); (1, inject_Z (-1))] in
  (forall self' model',
      MyOnlineModule.step self model = Ok (self', model') ->
      (Model.p model <= Model.p model' <= 1)%Q) /\
  exists delta fitted stepped model',
    MyOnlineModule.fit scores self model = Ok fitted /\
    MyOnlineModule.deltas fitted = MyOnlineModule.deltas self ++ [delta] /\
    (0 <= delta)%Q /\
    MyOnlineModule.step fitted model = Ok (stepped, model') /\
    MyOnlineModule.deltas stepped = [] /\
    (Model.p model <= Model.p model' <= 1)%Q.
Proof.
  apply (online_p_never_decreases
           (snd (MyOnlineModule.sample [true; false] (MyOnlineModule.init None)))
           (Model.init None)
           [(0, inject_Z 1); (1, inject_Z (-1))]).
  - unfold Model.init, Model.p. simpl. lra.
  - simpl. lra.
  - simpl. constructor.
  - repeat constructor.
    + exists true. split; reflexivity.
    + exists false. split; reflexivity.
  - discriminate.
Defined.

(** ** The face *)

(** The items of a generator suspended in its loop: indices [k], [k+1],
    ... below [n], at most [pulls] of them. *)
Lemma scrap_take_looping (pulls : nat) :
  forall (n k : Z) (self : MyFace.t),
    MyFace.scrap_take pulls (MyFace.Looping n k) self =
    (map (fun j => scrap_item (k + Z.of_nat j))
         (seq 0 (Nat.min pulls (Z.to_nat (n - k)))),
     if (Z.to_nat (n - k) <? pulls)%nat then MyFace.Finished
     else MyFace.Looping n (k + Z.of_nat pulls),
     self).
Proof.
  induction pulls as [|pulls IH]; intros n k self.
  - simpl. now rewrite Z.add_0_r.
  - cbn [MyFace.scrap_take MyFace.scrap_next]. unfold MyFace.scrap_loop.
    destruct (k <? n) eqn:Hk.
    + apply Z.ltb_lt in Hk. rewrite IH.
      replace (Z.to_nat (n - k)) with (S (Z.to_nat (n - (k + 1)))) by lia.
      cbn [Nat.min seq map]. rewrite <- seq_shift, map_map.
      split_triple.
      * f_equal; [now rewrite Z.add_0_r |].
        apply map_ext. intros j. f_equal. lia.
      * change (S (Z.to_nat (n - (k + 1))) <? S pulls)%nat
          with (Z.to_nat (n - (k + 1)) <? pulls)%nat.
        destruct (_ <? _)%nat; [reflexivity |]. f_equal. lia.
    + apply Z.ltb_ge in Hk.
      replace (Z.to_nat (n - k)) with O by lia. reflexivity.
Qed.

Lemma scrap_take_created (pulls : nat) (limit : option Z) (self : MyFace.t) :
  MyFace.scrap_take (S pulls) (MyFace.scrap limit) self =
  (map scrap_item (firstn (S pulls) (range (py_or limit 100))),
   if (Z.to_nat (py_or limit 100) <? S pulls)%nat then MyFace.Finished
   else MyFace.Looping (py_or limit 100) (Z.of_nat (S pulls)),
   {| MyFace.i := py_or limit 100 + 1; MyFace.posts := MyFace.posts self |}).
Proof.
  set (n := py_or limit 100).
  pose proof (scrap_take_looping (S pulls) n 0
                {| MyFace.i := n + 1; MyFace.posts := MyFace.posts self |}) as H.
  cbn [MyFace.scrap_take MyFace.scrap_next] in H.
  unfold MyFace.scrap.
  cbn [MyFace.scrap_take MyFace.scrap_next]. fold n.
  etransitivity; [exact H |].
  rewrite Z.sub_0_r. split_triple; [| reflexivity].
  unfold range. rewrite firstn_map, take_seq, map_map. reflexivity.
Qed.

Lemma range_length (n : Z) : Z.of_nat (length (range n)) = Z.max 0 n.
Proof. unfold range. rewrite length_map, length_seq. lia. Qed.

Lemma range_elem (n x : Z) : In x (range n) <-> 0 <= x < n.
Proof.
  unfold range. rewrite in_map_iff. split.
  - intros (j & <- & Hj). apply in_seq in Hj. lia.
  - intros Hx. exists (Z.to_nat x). split; [lia |]. apply in_seq. lia.
Qed.

Lemma range_NoDup (n : Z) : NoDup (range n).
Proof.
  unfold range. apply (NoDup_fmap_2 Z.of_nat), NoDup_seq.
Qed.

(** [limit or 100]: the limit unless it is [None] or zero. *)
Lemma py_or_spec (x : option Z) (d : Z) :
  py_or x d = match x with
              | Some l => if l =? 0 then d else l
              | None => d
              end.
Proof. destruct x as [[| |]|]; reflexivity. Qed.

(** The convention, with the number of items written [limit or 100]. *)
Lemma MyFace_convention_by_py_or :
  (forall (limit : option Z) (self : MyFace.t),
      let n := py_or limit 100 in
      MyFace.scrap_take (S (Z.to_nat n)) (MyFace.scrap limit) self =
        (map (fun i => (i, i mod 3 =? 0)) (range n), MyFace.Finished,
         {| MyFace.i := n + 1; MyFace.posts := MyFace.posts self |}) /\
      Z.of_nat (length (range n)) = Z.max 0 n) /\
  (forall (limit : option Z) (pulls : nat) (self : MyFace.t),
      MyFace.scrap_take 0 (MyFace.scrap limit) self = ([], MyFace.scrap limit, self) /\
      fst (fst (MyFace.scrap_take pulls (MyFace.scrap limit) self)) =
        firstn pulls (map (fun i => (i, i mod 3 =? 0)) (range (py_or limit 100)))) /\
  (forall (data : bool) (self : MyFace.t),
      let '(post_id, self') := MyFace.post data self in
      post_id = MyFace.i self /\
      MyFace.posts self' = <[post_id := data]> (MyFace.posts self) /\
      MyFace.i self' = MyFace.i self + 1 /\
      MyFace.score post_id self' = Ok (if data then 1 else -1)) /\
  (forall (post_id : Z) (self : MyFace.t),
      MyFace.score post_id self =
      match MyFace.posts self !! post_id with
      | Some true => Ok 1
      | Some false => Ok (-1)
      | None => Raise (KeyError post_id)
      end).
Proof.
  split; [| split; [| split]].
  - intros limit self n. split; [| apply range_length].
    rewrite scrap_take_created. fold n.
    rewrite firstn_all2 by (rewrite <- (Nat2Z.id (length _)), range_length; lia).
    rewrite Nat.ltb_irrefl || replace (Z.to_nat n <? S (Z.to_nat n))%nat with true
      by (symmetry; apply Nat.ltb_lt; lia).
    reflexivity.
  - intros limit pulls self. split; [reflexivity |].
    destruct pulls as [|pulls]; [reflexivity |].
    rewrite scrap_take_created. simpl fst. now rewrite firstn_map.
  - intros data self. unfold MyFace.post, MyFace.score. simpl.
    rewrite lookup_insert_eq. repeat split. now destruct data.
  - intros post_id self. unfold MyFace.score.
    destruct (MyFace.posts self !! post_id) as [[|]|]; reflexivity.
Qed.

(** C3: the calling convention of the demonstrated face. Iterating
    [scrap(limit)] to exhaustion yields the pairs (i, i mod 3 == 0) for
    i = 0 .. n-1 in order, where n is [limit] when it is truthy (an
    integer other than zero) and 100 otherwise (for [None] and for 0),
    that is n pairs (none when n is negative), and leaves the counter at
    n + 1; the generator is lazy: created it changes nothing, and asked
    [pulls] times it has yielded the first [pulls] of those pairs.
    [post(data)] returns the counter as the identifier, stores the
    content under it and advances the counter; [score] of that identifier
    is then +1 for True and -1 for False, as it is for every identifier
    with a stored content. *)
Theorem MyFace_calling_convention :
  (forall (limit : option Z) (self : MyFace.t),
      let n := match limit with
               | Some l => if l =? 0 then 100 else l
               | None => 100
               end in
      MyFace.scrap_take (S (Z.to_nat n)) (MyFace.scrap limit) self =
        (map (fun i => (i, i mod 3 =? 0)) (map Z.of_nat (seq 0 (Z.to_nat n))),
         MyFace.Finished,
         {| MyFace.i := n + 1; MyFace.posts := MyFace.posts self |}) /\
      Z.of_nat (length (map Z.of_nat (seq 0 (Z.to_nat n)))) = Z.max 0 n) /\
  (forall (limit : option Z) (pulls : nat) (self : MyFace.t),
      let n := match limit with
               | Some l => if l =? 0 then 100 else l
               | None => 100
               end in
      MyFace.scrap_take 0 (MyFace.scrap limit) self = ([], MyFace.scrap limit, self) /\
      fst (fst (MyFace.scrap_take pulls (MyFace.scrap limit) self)) =
        firstn pulls
          (map (fun i => (i, i mod 3 =? 0)) (map Z.of_nat (seq 0 (Z.to_nat n))))) /\
  (forall (data : bool) (self : MyFace.t),
      let '(post_id, self') := MyFace.post data self in
      post_id = MyFace.i self /\
      MyFace.posts self' = <[post_id := data]> (MyFace.posts self) /\
      MyFace.i self' = MyFace.i self + 1 /\
      MyFace.score post_id self' = Ok (if data then 1 else -1)) /\
  (forall (post_id : Z) (self : MyFace.t),
      MyFace.score post_id self =
      match MyFace.posts self !! post_id with
      | Some true => Ok 1
      | Some false => Ok (-1)
      | None => Raise (KeyError post_id)
      end).
Proof.
  destruct MyFace_convention_by_py_or as (Hall & Hlazy & Hpost & Hscore).
  split; [| split; [| split]]; [| | exact Hpost | exact Hscore].
  - intros limit self n. subst n. rewrite <- (py_or_spec limit 100).
    exact (Hall limit self).
  - intros limit pulls self n. subst n. rewrite <- (py_or_spec limit 100).
    exact (Hlazy limit pulls self).
Qed.

(** ** Runs of the face *)

Lemma distinct_NoDup (ids : list Z) : distinct ids = true <-> NoDup ids.
Proof.
  induction ids as [|x ids IH]; simpl.
  - split; [constructor | reflexivity].
  - rewrite andb_true_iff, negb_true_iff, NoDup_cons, IH.
    assert (H : existsb (Z.eqb x) ids = false <-> x ∉ ids); [| tauto].
    rewrite <- not_true_iff_false, existsb_exists. split.
    + intros Hn Hin. apply Hn. exists x. split; [now apply list_elem_of_In | apply Z.eqb_refl].
    + intros Hn (y & Hy & Heq). apply Z.eqb_eq in Heq. subst y.
      apply Hn. now apply list_elem_of_In.
Qed.

Lemma scrap_next_posts (g : MyFace.scrap_gen) (self : MyFace.t) :
  MyFace.posts (snd (MyFace.scrap_next g self)) = MyFace.posts self.
Proof. destruct g; reflexivity. Qed.

Lemma scrap_take_posts (pulls : nat) :
  forall (g : MyFace.scrap_gen) (self : MyFace.t),
    MyFace.posts (snd (MyFace.scrap_take pulls g self)) = MyFace.posts self.
Proof.
  induction pulls as [|pulls IH]; intros g self; [reflexivity |].
  cbn [MyFace.scrap_take].
  pose proof (scrap_next_posts g self) as Hn.
  destruct (MyFace.scrap_next g self) as [[[item|] g'] self'].
  - specialize (IH g' self').
    destruct (MyFace.scrap_take pulls g' self') as [[items g''] self''].
    simpl in *. congruence.
  - exact Hn.
Qed.

Lemma posted_ids_app (evs evs' : list face_event) :
  posted_ids (evs ++ evs') = posted_ids evs ++ posted_ids evs'.
Proof. unfold posted_ids. now rewrite filter_app, map_app. Qed.

Lemma posted_ids_scraped (items : list (Z * bool)) :
  posted_ids (map (fun '(post_id, content) => Scraped post_id content) items) = [].
Proof. induction items as [|[a b] items IH]; [reflexivity | exact IH]. Qed.

(** The keys of the face's dictionary after a run are the keys it had
    before and the identifiers [post] returned during the run. *)
Lemma face_run_posts (ops : list face_op) :
  forall (self : MyFace.t) (post_id : Z),
    is_Some (MyFace.posts (snd (face_run ops self)) !! post_id) <->
    is_Some (MyFace.posts self !! post_id) \/
    post_id ∈ posted_ids (fst (face_run ops self)).
Proof.
  induction ops as [|op ops IH]; intros self post_id.
  - simpl. rewrite elem_of_nil. tauto.
  - cbn [face_run].
    destruct (face_op_run op self) as [evs self'] eqn:Hop.
    specialize (IH self' post_id).
    destruct (face_run ops self') as [evs' self''].
    simpl in *. rewrite posted_ids_app, elem_of_app, IH.
    destruct op as [limit pulls|data]; simpl in Hop.
    + pose proof (scrap_take_posts pulls (MyFace.scrap limit) self) as Hp.
      destruct (MyFace.scrap_take _ _ _) as [[items g] s].
      injection Hop as <- <-. simpl in Hp.
      rewrite Hp, posted_ids_scraped, elem_of_nil. tauto.
    + injection Hop as <- <-. simpl.
      rewrite lookup_insert_is_Some. unfold posted_ids. simpl.
      rewrite list_elem_of_singleton.
      destruct (decide (MyFace.i self = post_id)) as [->|Hne]; [tauto |].
      intuition congruence.
Qed.

(** C5: a score is defined exactly for the identifiers [post] returned.
    After any run of scrap and post operations on a new face,
    [score(post_id)] returns +1 or -1 when [post_id] was returned by a
    [post] of the run and raises KeyError otherwise; in particular it
    raises for every identifier when the run only scraped. *)
Theorem score_defined_iff_posted :
  (forall (ops : list face_op) (post_id : Z),
      match MyFace.score post_id (snd (face_run ops MyFace.init)) with
      | Ok v => (post_id ∈ posted_ids (fst (face_run ops MyFace.init))) /\ (v = 1 \/ v = -1)
      | Raise e => (post_id ∉ posted_ids (fst (face_run ops MyFace.init))) /\ e = KeyError post_id
      end) /\
  (forall (limit : option Z) (pulls : nat) (post_id : Z),
      MyFace.score post_id (snd (face_run [Scrap limit pulls] MyFace.init)) =
      Raise (KeyError post_id)).
Proof.
  assert (Hmain : forall (ops : list face_op) (post_id : Z),
      match MyFace.score post_id (snd (face_run ops MyFace.init)) with
      | Ok v => (post_id ∈ posted_ids (fst (face_run ops MyFace.init))) /\ (v = 1 \/ v = -1)
      | Raise e => (post_id ∉ posted_ids (fst (face_run ops MyFace.init))) /\ e = KeyError post_id
      end).
  { intros ops post_id.
    pose proof (face_run_posts ops MyFace.init post_id) as H.
    unfold MyFace.score.
    destruct (MyFace.posts (snd (face_run ops MyFace.init)) !! post_id) as [data|] eqn:Hl.
    - split.
      + destruct H as [H _]. destruct H as [H|H]; [now eexists | | exact H].
        simpl in H. rewrite lookup_empty in H. now destruct H.
      + destruct data; simpl; auto.
    - split; [| reflexivity].
      intros Hin. destruct H as [_ H]. destruct H as [x Hx]; [now right |]. 
      congruence. }
  split; [exact Hmain |].
  intros limit pulls post_id. specialize (Hmain [Scrap limit pulls] post_id).
  destruct (MyFace.score _ _) as [v|e]; [| destruct Hmain as [_ ->]; reflexivity].
  destruct Hmain as [Hin _]. exfalso. revert Hin. cbn [face_run face_op_run].
  destruct (MyFace.scrap_take _ _ _) as [[items g] s]. simpl.
  rewrite app_nil_r, posted_ids_scraped. apply not_elem_of_nil.
Qed.

(** ** Identifiers *)

Lemma identifiers_app (evs evs' : list face_event) :
  identifiers (evs ++ evs') = identifiers evs ++ identifiers evs'.
Proof. unfold identifiers. apply map_app. Qed.

(** Posting hands out the counter's successive values. *)
Lemma posts_identifiers (datas : list bool) :
  forall self : MyFace.t,
    identifiers (fst (face_run (map Post datas) self)) =
    map (fun j => MyFace.i self + Z.of_nat j) (seq 0 (length datas)).
Proof.
  induction datas as [|data datas IH]; intros self; [reflexivity |].
  cbn [map face_run face_op_run MyFace.post].
  specialize (IH {| MyFace.i := MyFace.i self + 1;
                    MyFace.posts := <[MyFace.i self := data]> (MyFace.posts self) |}).
  destruct (face_run (map Post datas) _) as [evs self'].
  simpl in *. rewrite IH, <- seq_shift, map_map. f_equal; [lia |].
  apply map_ext. intros j. lia.
Qed.

Lemma scrap_identifiers (limit : option Z) (pulls : nat) (self : MyFace.t) :
  let '(evs, self') := face_op_run (Scrap limit pulls) self in
  identifiers evs = firstn pulls (range (py_or limit 100)) /\
  MyFace.i self' = match pulls with O => MyFace.i self | S _ => py_or limit 100 + 1 end.
Proof.
  destruct pulls as [|pulls].
  - simpl. now split.
  - cbn [face_op_run]. rewrite scrap_take_created. split; [| reflexivity].
    unfold identifiers. rewrite !map_map.
    rewrite <- (map_id (firstn _ _)) at 2. apply map_ext. now intros i.
Qed.

(** C4, as the code has it: in a run that scraps once and then posts, all
    identifiers yielded by [scrap] and returned by [post] are pairwise
    distinct, whatever the limit, however many items of the scraping were
    consumed and however many posts follow. *)
Theorem identifiers_unique_scrap_then_post
    (limit : option Z) (pulls : nat) (datas : list bool) :
  distinct (identifiers (fst (face_run (Scrap limit pulls :: map Post datas) MyFace.init)))
  = true.
Proof.
  apply distinct_NoDup. cbn [face_run].
  pose proof (scrap_identifiers limit pulls MyFace.init) as Hs.
  destruct (face_op_run (Scrap limit pulls) MyFace.init) as [evs self'].
  destruct Hs as [Hids Hi].
  pose proof (posts_identifiers datas self') as Hp.
  destruct (face_run (map Post datas) self') as [evs' self''].
  simpl in *. rewrite identifiers_app, Hids, Hp.
  apply NoDup_app. split; [| split].
  - eapply sublist_NoDup; [apply range_NoDup | apply sublist_take].
  - intros x Hx Hx'.
    apply list_elem_of_In, in_map_iff in Hx'. destruct Hx' as (j & <- & _).
    destruct pulls as [|pulls]; [now rewrite take_0, elem_of_nil in Hx |].
    apply elem_of_take in Hx. destruct Hx as (k & Hk & _).
    apply list_elem_of_lookup_2, list_elem_of_In, range_elem in Hk. lia.
  - assert (Hinj : Inj eq eq (fun j : nat => MyFace.i self' + Z.of_nat j))
      by (intros a b ?; lia).
    apply (NoDup_fmap_2 _), NoDup_seq.
Qed.

(** C4, as the claim states it, fails: a post made before the scraping
    returns identifier 0, and the scraping then yields identifier 0 too. *)
Lemma identifiers_not_unique_post_then_scrap :
  identifiers (fst (face_run [Post true; Scrap (Some 2) 3] MyFace.init)) = [0; 0; 1] /\
  distinct (identifiers (fst (face_run [Post true; Scrap (Some 2) 3] MyFace.init))) = false.
Proof. split; reflexivity. Qed.

(** ** Batches *)





(** ** The offline trainer *)

Section OfflineFacts.

Context {F M KE V : Type} `{Face F KE V} `{OfflineModule M V}.


Lemma scrap_count_app (l1 l2 : list (@OfflineEvent V)) :
  scrap_count (l1 ++ l2) = (scrap_count l1 + scrap_count l2)%nat.
Proof.
  induction l1 as [|ev l1 IH]; [reflexivity |].
  destruct ev; simpl; rewrite IH; reflexivity.
Qed.

Lemma offline_replay_app (l1 l2 : list (@OfflineEvent V)) :
  forall m m' : M,
    offline_replay l1 m = Ok m' ->
    offline_replay (l1 ++ l2) m = offline_replay l2 m'.
Proof.
  induction l1 as [|ev l1 IH]; intros m m' H1; simpl in *.
  - now injection H1 as ->.
  - destruct ev; simpl in *; try (now apply IH).
    + destruct (offline_fit batch m) as [m1|e]; simpl in *; [now apply IH | discriminate].
    + destruct (offline_step m) as [m1|e]; simpl in *; [now apply IH | discriminate].
Qed.



Lemma scrap_count_epoch (bs : list (list V)) : scrap_count (epoch_calls bs) = O.
Proof. induction bs as [|b bs IH]; [reflexivity | exact IH]. Qed.

(** What one pass over the batches leaves untouched, and what it logs:
    some module calls, which replay to the module the pass ends with. *)
Lemma fit_batches_frame (bs : list (list V)) :
  forall (r : @OfflineRun F M KE V),
    let r' := fst (fit_batches bs r) in
    off_face r' = off_face r /\
    off_storage r' = off_storage r /\
    epochs (off_state r') = epochs (off_state r) /\
    exists calls,
      off_log r' = off_log r ++ calls /\
      offline_calls calls = calls /\
      offline_replay calls (off_module r) = Ok (off_module r') /\
      (snd (fit_batches bs r) = None ->
       calls = epoch_calls bs /\
       updates (off_state r') = (updates (off_state r) + length bs)%nat).
Proof.
  induction bs as [|batch bs IH]; intros r; simpl.
  - repeat split; try reflexivity. exists []. rewrite app_nil_r.
    repeat split; try reflexivity. simpl. lia.
  - destruct (offline_fit batch (off_module r)) as [fitted|e] eqn:Hfit; simpl.
    + destruct (offline_step fitted) as [stepped|e] eqn:Hstep; simpl.
      * match goal with |- context [fit_batches bs ?r1] => specialize (IH r1) end.
        simpl in IH. destruct IH as (Hf & Hs & He & calls & Hlog & Hcalls & Hrep & Hok).
        split; [exact Hf |]. split; [exact Hs |]. split; [exact He |].
        exists (OffFit batch :: OffStep :: calls).
        rewrite Hlog, <- !app_assoc. simpl. rewrite Hcalls, Hfit. simpl.
        rewrite Hstep. simpl.
        split; [reflexivity |]. split; [reflexivity |]. split; [exact Hrep |].
        intros Hnone. destruct (Hok Hnone) as [-> ->]. split; [reflexivity | lia].
      * repeat split; try reflexivity. exists [OffFit batch].
        simpl. rewrite Hfit. simpl. repeat split; try reflexivity; discriminate.
    + repeat split; try reflexivity. exists []. rewrite app_nil_r.
      repeat split; try reflexivity; discriminate.
Qed.

Lemma cached_cache (factory : DatasetFactory) (dataset : list (KE * V)) (st : Storage) :
  cached factory (cache factory dataset st) = Some dataset.
Proof. destruct factory; simpl; [reflexivity | apply lookup_insert_eq]. Qed.

(** Loading the dataset leaves it cached, leaves the module alone, and
    logs a scraping only when nothing was cached. *)
Lemma load_dataset_spec (factory : DatasetFactory) (r : @OfflineRun F M KE V) :
  let '(dataset, r') := load_dataset factory r in
  dataset = first_dataset factory (off_face r) (off_storage r) /\
  cached factory (off_storage r') = Some dataset /\
  off_module r' = off_module r /\
  off_state r' = off_state r /\
  off_log r' = off_log r ++
    match cached factory (off_storage r) with Some _ => [] | None => [OffScrap] end.
Proof.
  unfold load_dataset, first_dataset.
  destruct (cached factory (off_storage r)) as [d|] eqn:Hc.
  - rewrite app_nil_r. repeat split; assumption || reflexivity.
  - destruct (face_scrap None (off_face r)) as [d face'] eqn:Hs. simpl.
    repeat split. apply cached_cache.
Qed.

End OfflineFacts.

Section OfflineLoop.

Context {F M KE V : Type} `{Face F KE V} `{OfflineModule M V}.

(** The frame of the offline loop: what it logs replays, on the module it
    started with, to the module it ends with; and once a dataset is
    cached it scrapes no more. *)
Lemma offline_loop_frame (trainer : OfflineTrainer) (fuel : nat) :
  forall r : @OfflineRun F M KE V,
    exists tail,
      off_log (fst (offline_loop fuel trainer r)) = off_log r ++ tail /\
      offline_replay tail (off_module r) =
        Ok (off_module (fst (offline_loop fuel trainer r))) /\
      (is_Some (cached (dataset_factory (posts_loader trainer)) (off_storage r)) ->
       scrap_count tail = O).
Proof.
  induction fuel as [|fuel IH]; intros r; cbn [offline_loop].
  - exists []. rewrite app_nil_r. now repeat split.
  - destruct (stop_condition trainer (off_state r)).
    + exists [OffStop true]. now repeat split.
    + pose proof (load_dataset_spec (dataset_factory (posts_loader trainer))
                    (off_logged (OffStop false) r)) as Hload.
      destruct (load_dataset _ _) as [dataset r1].
      destruct Hload as (_ & Hcached & Hmod & _ & Hlog1). simpl in Hmod, Hlog1.
      pose proof (fit_batches_frame
                    (batches (batch_size (posts_loader trainer)) (map snd dataset)) r1)
        as Hpass.
      destruct (fit_batches _ r1) as [r2 err]. simpl in Hpass.
      destruct Hpass as (_ & Hst & _ & calls & Hlog2 & Hcalls & Hrep & _).
      assert (Hscr : scrap_count calls = O).
      { rewrite <- Hcalls. clear. induction calls as [|[]]; simpl; auto. }
      set (loaded := match cached (dataset_factory (posts_loader trainer)) (off_storage r)
                     with Some _ => [] | None => [OffScrap] end) in *.
      assert (Hpre : offline_replay ([OffStop false] ++ loaded) (off_module r)
                     = Ok (off_module r1)).
      { rewrite Hmod. subst loaded. simpl.
        destruct (cached (dataset_factory (posts_loader trainer)) (off_storage r));
          reflexivity. }
      assert (Hloaded : is_Some (cached (dataset_factory (posts_loader trainer))
                                        (off_storage r)) ->
                        scrap_count loaded = O).
      { intros [d Hd]. subst loaded. now rewrite Hd. }
      destruct err as [e|]; simpl.
      * exists (([OffStop false] ++ loaded) ++ calls).
        split; [rewrite Hlog2, Hlog1, <- !app_assoc; reflexivity |].
        split.
        -- rewrite (offline_replay_app _ _ _ _ Hpre). exact Hrep.
        -- intros Hc. rewrite !scrap_count_app, Hscr, (Hloaded Hc). reflexivity.
      * destruct (IH (off_count_epoch r2)) as (tail & Htl & Hreplay & Hnoscrap).
        simpl in Htl, Hreplay, Hnoscrap.
        exists ((([OffStop false] ++ loaded) ++ calls) ++ tail).
        split; [rewrite Htl, Hlog2, Hlog1, <- !app_assoc; reflexivity |].
        split.
        -- assert (Hmid : offline_replay (([OffStop false] ++ loaded) ++ calls)
                            (off_module r) = Ok (off_module r2)).
           { rewrite (offline_replay_app _ _ _ _ Hpre). exact Hrep. }
           rewrite (offline_replay_app _ _ _ _ Hmid). exact Hreplay.
        -- intros Hc. rewrite !scrap_count_app, Hscr, (Hloaded Hc). simpl.
           apply Hnoscrap. rewrite Hst, Hcached. now eexists.
Qed.

End OfflineLoop.

Section OfflineClaims.

Context {F M KE V : Type} `{Face F KE V} `{OfflineModule M V}.



End OfflineClaims.

Section OfflineEpochs.

Context {F M KE V : Type} `{Face F KE V} `{OfflineModule M V}.


End OfflineEpochs.

(** ** The demonstrated modules under the offline trainer *)






(** ** The online trainer *)


Section OnlineFacts.

Context {F M KE KI V : Type} `{EqDecision KI} `{Face F KE V} `{OnlineModule M KI V}.

Abbreviation Event := (@OnlineEvent KE KI V).

Lemma online_query_count_app (l1 l2 : list Event) :
  online_query_count (l1 ++ l2) = (online_query_count l1 + online_query_count l2)%nat.
Proof.
  induction l1 as [|ev l1 IH]; [reflexivity |].
  destruct ev; simpl; rewrite IH; reflexivity.
Qed.

Lemma post_events_no_query (published : list (KI * V * KE)) :
  online_query_count (post_events published) = O.
Proof. induction published as [|[[ki c] ke] l IH]; [reflexivity | exact IH]. Qed.

Lemma score_events_no_query (scored : list (KI * KE * Q)) :
  online_query_count (score_events (V:=V) scored) = O.
Proof. induction scored as [|[[ki ke] s] l IH]; [reflexivity | exact IH]. Qed.

(** An iteration queries the stop condition once. *)
Lemma cycle_events_one_query (trainer : OnlineTrainer)
    (published : list (KI * V * KE)) (scored : list (KI * KE * Q)) :
  online_query_count (cycle_events trainer published scored) = 1%nat.
Proof.
  unfold cycle_events. simpl.
  rewrite !online_query_count_app, post_events_no_query, score_events_no_query.
  reflexivity.
Qed.

Lemma collect_scored (published : list (KI * V * KE)) (face : F) :
  forall scored,
    collect published face = (scored, None) ->
    map (fun '(ki, _, ke) => (ki, ke)) published =
    map (fun '(ki, ke, _) => (ki, ke)) scored.
Proof.
  induction published as [|[[ki c] ke] published IH]; intros scored Hc; simpl in Hc.
  - now injection Hc as <-.
  - destruct (face_score ke face) as [s|e]; [| discriminate].
    destruct (collect published face) as [scored' err] eqn:Hrest.
    injection Hc as <- ->. simpl. f_equal. now apply IH.
Qed.

Lemma online_replay_app (l1 l2 : list Event) :
  forall m m' : M,
    online_replay l1 m = Ok m' ->
    online_replay (l1 ++ l2) m = online_replay l2 m'.
Proof.
  induction l1 as [|ev l1 IH]; intros m m' H1; simpl in *.
  - now injection H1 as ->.
  - destruct ev; simpl in *; try (now apply IH).
    + destruct (online_fit scores m) as [m1|e]; simpl in *; [now apply IH | discriminate].
    + destruct (online_step m) as [m1|e]; simpl in *; [now apply IH | discriminate].
Qed.

Lemma online_replay_posts (published : list (KI * V * KE)) (m : M) :
  online_replay (post_events published) m = Ok m.
Proof. induction published as [|[[ki c] ke] l IH]; [reflexivity | exact IH]. Qed.

Lemma online_replay_scores (scored : list (KI * KE * Q)) (m : M) :
  online_replay (score_events (V:=V) scored) m = Ok m.
Proof. induction scored as [|[[ki ke] s] l IH]; [reflexivity | exact IH]. Qed.

(** One cycle: what it logs replays to the module it ends with; and when
    it raises nothing it logs one iteration and counts one update. *)
Lemma online_cycle_spec (trainer : OnlineTrainer) (r : @OnlineRun F M KE KI V) :
  let r' := fst (online_cycle trainer (on_logged (OnStop false) r)) in
  exists tail,
    on_log r' = on_log r ++ tail /\
    online_replay tail (on_module r) = Ok (on_module r') /\
    (snd (online_cycle trainer (on_logged (OnStop false) r)) = None ->
     updates (on_state r') = S (updates (on_state r)) /\
     epochs (on_state r') = epochs (on_state r) /\
     exists published scored,
       map (fun '(ki, _, ke) => (ki, ke)) published =
         map (fun '(ki, ke, _) => (ki, ke)) scored /\
       tail = cycle_events trainer published scored).
Proof.
  unfold online_cycle. cbn [on_module on_face on_state on_log on_logged].
  destruct (online_sample (generator trainer) (on_module r)) as [posts sampled] eqn:Hs.
  destruct (publish posts (on_face r)) as [published face'].
  destruct (collect published face') as [scored err] eqn:Hc.
  assert (Hpre : online_replay
                   ([OnStop false; OnSample (generator trainer); OnWait (scheduler trainer)]
                      ++ post_events published ++ score_events (V:=V) scored) (on_module r)
                 = Ok sampled).
  { simpl. rewrite Hs. simpl.
    rewrite (online_replay_app _ _ _ _ (online_replay_posts published sampled)).
    apply online_replay_scores. }
  destruct err as [e|].
  { simpl.
    exists ([OnStop false; OnSample (generator trainer); OnWait (scheduler trainer)]
              ++ post_events published ++ score_events (V:=V) scored).
    split; [list_assoc |]. split; [exact Hpre | discriminate]. }
  destruct (online_fit (scores_dict scored) sampled) as [fitted|e] eqn:Hfit.
  2:{ simpl.
      exists ([OnStop false; OnSample (generator trainer); OnWait (scheduler trainer)]
                ++ post_events published ++ score_events (V:=V) scored).
      split; [list_assoc |]. split; [exact Hpre | discriminate]. }
  destruct (online_step fitted) as [stepped|e] eqn:Hstep.
  - simpl. exists (cycle_events trainer published scored). split; [| split].
    + unfold cycle_events. list_assoc.
    + unfold cycle_events.
      replace ([OnStop false; OnSample (generator trainer); OnWait (scheduler trainer)]
                 ++ post_events published ++ score_events (V:=V) scored
                 ++ [OnFit (scores_dict scored); OnStep])
        with (([OnStop false; OnSample (generator trainer); OnWait (scheduler trainer)]
                 ++ post_events published ++ score_events (V:=V) scored)
                 ++ [OnFit (scores_dict scored); OnStep])
        by list_assoc.
      rewrite (online_replay_app _ _ _ _ Hpre). simpl. rewrite Hfit. simpl.
      now rewrite Hstep.
    + intros _. repeat split. exists published, scored.
      split; [now apply (collect_scored _ face') | reflexivity].
  - simpl.
    exists (([OnStop false; OnSample (generator trainer); OnWait (scheduler trainer)]
               ++ post_events published ++ score_events (V:=V) scored)
              ++ [OnFit (scores_dict scored)]).
    split; [list_assoc |]. split; [| discriminate].
    rewrite (online_replay_app _ _ _ _ Hpre). simpl. now rewrite Hfit.
Qed.

(** The frame of the online loop: what it logs replays, on the module it
    started with, to the module it ends with. *)
Lemma online_loop_frame (trainer : OnlineTrainer) (fuel : nat) :
  forall r : @OnlineRun F M KE KI V,
    exists tail,
      on_log (fst (online_loop fuel trainer r)) = on_log r ++ tail /\
      online_replay tail (on_module r) = Ok (on_module (fst (online_loop fuel trainer r))).
Proof.
  induction fuel as [|fuel IH]; intros r; cbn [online_loop].
  - exists []. now rewrite app_nil_r.
  - destruct (online_stop_condition trainer (on_state r)).
    + exists [OnStop true]. now split.
    + destruct (online_cycle_spec trainer r) as (tail & Hlog & Hrep & _).
      destruct (online_cycle trainer (on_logged (OnStop false) r)) as [r1 [e|]].
      * exists tail. now split.
      * simpl in Hlog, Hrep. destruct (IH r1) as (tail' & Hlog' & Hrep').
        exists (tail ++ tail'). split.
        -- now rewrite Hlog', Hlog, app_assoc.
        -- now rewrite (online_replay_app _ _ _ _ Hrep).
Qed.

End OnlineFacts.

(** ** The demonstrated face and module under the online trainer *)

Lemma online_fit_succeeds (scores : list (Z * Q)) (self : MyOnlineModule.t)
    (model : Model.t) :
  demonstrated_scoring (MyOnlineModule.posts self) scores ->
  scores <> [] ->
  exists delta,
    MyOnlineModule.fit scores self model =
      Ok {| MyOnlineModule.deltas := MyOnlineModule.deltas self ++ [delta];
            MyOnlineModule.alpha := MyOnlineModule.alpha self;
            MyOnlineModule.posts := MyOnlineModule.posts self;
            MyOnlineModule.i := MyOnlineModule.i self |}.
Proof.
  intros Hdemo Hne.
  destruct (by_content_demonstrated _ scores [] Hdemo) as (d & Hd & _ & Hdne);
    [constructor | now left |].
  unfold MyOnlineModule.fit. rewrite Hd. simpl.
  rewrite py_div_ok by (rewrite len_nil_iff; exact Hdne). simpl.
  eexists. reflexivity.
Qed.

(** Sampling stores every post it yields under the identifier it yields
    it with, and touches neither earlier posts nor the deltas. *)
Lemma sample_spec (drawn : list bool) :
  forall self : MyOnlineModule.t,
    let '(items, self') := MyOnlineModule.sample drawn self in
    map snd items = drawn /\
    (forall k, k < MyOnlineModule.i self ->
               MyOnlineModule.posts self' !! k = MyOnlineModule.posts self !! k) /\
    Forall (fun '(ki, c) => MyOnlineModule.i self <= ki /\
                            MyOnlineModule.posts self' !! ki = Some c) items.
Proof.
  induction drawn as [|post rest IH]; intros self; simpl.
  - repeat split. constructor.
  - match goal with |- context [MyOnlineModule.sample rest ?s] =>
      specialize (IH s); destruct (MyOnlineModule.sample rest s) as [items self'] end.
    simpl in IH. destruct IH as (Hmap & Hlow & Hall). simpl. split; [| split].
    + now rewrite Hmap.
    + intros k Hk. rewrite Hlow by lia. apply lookup_insert_ne. lia.
    + constructor.
      * split; [lia |]. rewrite Hlow by lia. apply lookup_insert_eq.
      * eapply Forall_impl; [exact Hall |]. intros [ki c] [Hle Hl]. split; [lia | exact Hl].
Qed.

(** Publishing on the demonstrated face stores every content under the
    identifier the face returns for it. *)
Lemma publish_spec (posts : list (Z * bool)) :
  forall face : MyFace.t,
    let '(published, face') := publish posts face in
    map (fun '(ki, c, _) => (ki, c)) published = posts /\
    (forall k, k < MyFace.i face -> MyFace.posts face' !! k = MyFace.posts face !! k) /\
    Forall (fun '(_, c, ke) => MyFace.i face <= ke /\ MyFace.posts face' !! ke = Some c)
           published.
Proof.
  induction posts as [|[ki c] posts IH]; intros face; simpl.
  - repeat split. constructor.
  - match goal with |- context [publish posts ?f] =>
      specialize (IH f); destruct (publish posts f) as [published face'] end.
    simpl in IH. destruct IH as (Hmap & Hlow & Hall). simpl. split; [| split].
    + now rewrite Hmap.
    + intros k Hk. rewrite Hlow by lia. apply lookup_insert_ne. lia.
    + constructor.
      * split; [lia |]. rewrite Hlow by lia. apply lookup_insert_eq.
      * eapply Forall_impl; [exact Hall |].
        intros [[ki' c'] ke] [Hle Hl]. split; [lia | exact Hl].
Qed.

(** The demonstrated face scores every published post, +1 or -1 by its
    content. *)
Lemma collect_spec (published : list (Z * bool * Z)) (face : MyFace.t) :
  Forall (fun '(_, c, ke) => MyFace.posts face !! ke = Some c) published ->
  collect published face =
  (map (fun '(ki, c, ke) => (ki, ke, inject_Z (int c * 2 - 1))) published, None).
Proof.
  induction 1 as [|[[ki c] ke] published Hke _ IH]; [reflexivity |].
  cbn [collect face_score MyFace_Face]. unfold MyFace.score. rewrite Hke, IH.
  reflexivity.
Qed.

Lemma dict_set_Forall {K W : Type} `{EqDecision K} (P : K * W -> Prop) (k : K) (v : W)
    (d : list (K * W)) :
  P (k, v) -> Forall P d -> Forall P (dict_set k v d).
Proof.
  intros Hkv. induction 1 as [|[k' v'] d Hhd Hd IH]; simpl.
  - constructor; [exact Hkv | constructor].
  - destruct (decide (k = k')); constructor; auto.
Qed.

Lemma scores_dict_spec (P : Z * Q -> Prop) (scored : list (Z * Z * Q)) :
  Forall (fun '(ki, _, s) => P (ki, s)) scored ->
  Forall P (scores_dict scored) /\ (scored <> [] -> scores_dict scored <> []).
Proof.
  unfold scores_dict. intros Hall.
  assert (Hgen : forall acc, Forall P acc ->
            Forall P (fold_left (fun d '(ki, _, score) => dict_set ki score d) scored acc) /\
            (scored <> [] \/ acc <> [] ->
             fold_left (fun d '(ki, _, score) => dict_set ki score d) scored acc <> [])).
  { induction Hall as [|[[ki ke] s] scored Hhd _ IH]; intros acc Hacc; simpl.
    - split; [exact Hacc |]. intros [Hn|Hn]; [congruence | exact Hn].
    - destruct (IH (dict_set ki s acc)) as [IH1 IH2]; [now apply dict_set_Forall |].
      split; [exact IH1 |]. intros _. apply IH2. right. apply dict_set_not_nil. }
  destruct (Hgen []) as [H1 H2]; [constructor |]. split; [exact H1 |].
  intros Hne. apply H2. now left.
Qed.

(** With at least one post generated, a cycle on the notebook's face and
    online module raises nothing. *)
Lemma demonstrated_online_cycle (trainer : OnlineTrainer)
    (r : @OnlineRun MyFace.t OnlineObject Z Z bool) :
  (1 <= generator trainer)%nat ->
  snd (online_cycle trainer r) = None.
Proof.
  intros Hg. unfold online_cycle.
  cbn [online_sample MyOnlineModule_OnlineModule].
  destruct (choices (generator trainer) (online_random (on_module r)))
    as [drawn random'] eqn:Hch.
  assert (Hdrawn : drawn <> []).
  { unfold choices in Hch. injection Hch as <- _.
    destruct (generator trainer); [lia | discriminate]. }
  pose proof (sample_spec drawn (online_self (on_module r))) as Hsample.
  destruct (MyOnlineModule.sample drawn _) as [items self'].
  destruct Hsample as (Hitems & _ & Hstored).
  pose proof (publish_spec items (on_face r)) as Hpub.
  destruct (publish items (on_face r)) as [published face'].
  destruct Hpub as (Hpmap & _ & Hposted).
  rewrite (collect_spec published face')
    by (eapply Forall_impl; [exact Hposted |]; now intros [[? ?] ?] [_ ?]).
  set (scored := map (fun '(ki, c, ke) => (ki, ke, inject_Z (int c * 2 - 1))) published).
  assert (Hscored : Forall (fun '(ki, _, s) =>
              exists x, MyOnlineModule.posts self' !! ki = Some x /\
                        s = inject_Z (int x * 2 - 1)) scored).
  { subst scored. apply Forall_map. rewrite <- Hpmap in Hstored.
    apply Forall_map in Hstored.
    eapply Forall_impl; [exact Hstored |].
    intros [[ki c] ke] [_ Hl]. simpl. now exists c. }
  destruct (scores_dict_spec
              (fun '(post_id, score) =>
                 exists x, MyOnlineModule.posts self' !! post_id = Some x /\
                           score = inject_Z (int x * 2 - 1))
              scored Hscored) as [Hdemo Hne].
  assert (Hsne : scored <> []).
  { subst scored. intros Hnil. apply map_eq_nil in Hnil. subst published.
    simpl in Hpmap. subst items. simpl in Hitems. congruence. }
  destruct (online_fit_succeeds (scores_dict scored) self' (online_model (on_module r))
              Hdemo (Hne Hsne)) as (delta & Hfit).
  cbn [online_fit online_step MyOnlineModule_OnlineModule online_self online_model].
  rewrite Hfit. cbn [mbind result_bind online_self online_model].
  unfold MyOnlineModule.step. rewrite mean_ok.
  - reflexivity.
  - cbn [MyOnlineModule.deltas]. now destruct (MyOnlineModule.deltas self').
Qed.

Lemma demonstrated_online_loop (trainer : OnlineTrainer) (fuel : nat) :
  (1 <= generator trainer)%nat ->
  forall (r : @OnlineRun MyFace.t OnlineObject Z Z bool) (e : exn),
    snd (online_loop fuel trainer r) <> Raised e.
Proof.
  intros Hg. induction fuel as [|fuel IH]; intros r e; cbn [online_loop]; [discriminate |].
  destruct (online_stop_condition trainer (on_state r)); [discriminate |].
  pose proof (demonstrated_online_cycle trainer (on_logged (OnStop false) r) Hg) as Hc.
  destruct (online_cycle trainer _) as [r1 err]. simpl in Hc. subst err. apply IH.
Qed.

(** ** The iterations of the online trainer *)

Lemma dict_set_unique_keys {K W : Type} `{EqDecision K} (k : K) (v : W) (d : list (K * W)) :
  NoDup d.*1 -> NoDup (dict_set k v d).*1.
Proof.
  induction d as [|[k' v'] d IH]; simpl; intros Hnd.
  - apply NoDup_singleton.
  - destruct (decide (k = k')) as [->|Hne]; [exact Hnd |].
    simpl. apply NoDup_cons in Hnd. destruct Hnd as [Hnotin Hnd].
    apply NoDup_cons. split; [| auto].
    intros Hin. apply Hnotin. clear -Hin Hne.
    induction d as [|[k0 v0] d IH]; simpl in *.
    + apply list_elem_of_singleton in Hin. congruence.
    + destruct (decide (k = k0)) as [->|Hne0]; simpl in *.
      * apply elem_of_cons in Hin. apply elem_of_cons.
        destruct Hin as [Hin|Hin]; [congruence | now right].
      * apply elem_of_cons in Hin. apply elem_of_cons.
        destruct Hin as [Hin|Hin]; [now left | right; auto].
Qed.

(** The entries of a dictionary after [d[k] = v]: the new entry, and the
    entries of the other keys. *)
Lemma dict_set_entries {K W : Type} `{EqDecision K} (k : K) (v : W) (d : list (K * W)) :
  NoDup d.*1 ->
  forall (k' : K) (v' : W),
    (k', v') ∈ dict_set k v d <-> (k' = k /\ v' = v) \/ (k' <> k /\ (k', v') ∈ d).
Proof.
  induction d as [|[k0 v0] d IH]; simpl; intros Hnd k' v'.
  - rewrite list_elem_of_singleton, elem_of_nil. split.
    + intros [= -> ->]. now left.
    + intros [[-> ->]|[_ []]]. reflexivity.
  - apply NoDup_cons in Hnd. destruct Hnd as [Hnotin Hnd].
    destruct (decide (k = k0)) as [->|Hne].
    + rewrite !elem_of_cons. split.
      * intros [[= -> ->]|Hin]; [now left |]. right. split; [| now right].
        intros ->. apply Hnotin. apply list_elem_of_fmap. now exists (k0, v').
      * intros [[-> ->]|[Hk [[= -> ->]|Hin]]]; [now left | congruence | now right].
    + rewrite !elem_of_cons, (IH Hnd). split.
      * intros [[= -> ->]|[[-> ->]|[Hk Hin]]].
        -- right. split; [congruence | now left].
        -- now left.
        -- right. split; [exact Hk | now right].
      * intros [[-> ->]|[Hk [[= -> ->]|Hin]]].
        -- right. now left.
        -- now left.
        -- right. right. now split.
Qed.

Lemma dict_set_new_key {K W : Type} `{EqDecision K} (k : K) (v : W) (d : list (K * W)) :
  k ∉ d.*1 -> dict_set k v d = d ++ [(k, v)].
Proof.
  induction d as [|[k0 v0] d IH]; simpl; intros Hnotin; [reflexivity |].
  rewrite not_elem_of_cons in Hnotin. destruct Hnotin as [Hne Hnotin].
  destruct (decide (k = k0)); [congruence |]. now rewrite IH.
Qed.

Section OnlineIterationFacts.

Context {F M KE KI V : Type} `{EqDecision KI} `{Face F KE V} `{OnlineModule M KI V}.

Lemma scores_dict_snoc (scored : list (KI * KE * Q)) (ki : KI) (ke : KE) (score : Q) :
  scores_dict (scored ++ [(ki, ke, score)]) = dict_set ki score (scores_dict scored).
Proof. unfold scores_dict. now rewrite fold_left_app. Qed.

Lemma last_score_snoc (k : KI) (scored : list (KI * KE * Q)) (ki : KI) (ke : KE)
    (score : Q) :
  last_score k (scored ++ [(ki, ke, score)]) =
  if decide (ki = k) then Some score else last_score k scored.
Proof. unfold last_score. now rewrite fold_left_app. Qed.

(** The dictionary the trainer builds is the dictionary of the collected
    scores. *)
Lemma scores_dict_is_scores_dict (scored : list (KI * KE * Q)) :
  is_scores_dict scored (scores_dict scored).
Proof.
  induction scored as [|[[ki ke] score] scored (IHnd & IHin & IHeq)] using rev_ind.
  - split; [constructor |]. split; [| reflexivity].
    intros ki score. unfold last_score. simpl. rewrite elem_of_nil. split; [tauto | discriminate].
  - rewrite scores_dict_snoc. split; [now apply dict_set_unique_keys |]. split.
    + intros k s. rewrite (dict_set_entries _ _ _ IHnd), last_score_snoc, IHin.
      destruct (decide (ki = k)) as [->|Hne]; split.
      * intros [[_ ->]|[Hk _]]; [reflexivity | congruence].
      * intros [= ->]. now left.
      * intros [[-> _]|[_ Hl]]; [congruence | exact Hl].
      * intros Hl. right. split; [congruence | exact Hl].
    + rewrite !map_app. simpl. intros Hnd.
      apply NoDup_app in Hnd. destruct Hnd as (Hnd & Hfresh & _).
      rewrite (IHeq Hnd). apply dict_set_new_key.
      intros Hin. apply list_elem_of_fmap in Hin. destruct Hin as ([k s] & -> & Hin).
      apply list_elem_of_fmap in Hin. destruct Hin as ([[k' ke'] s'] & [= -> ->] & Hin).
      apply (Hfresh k').
      * apply list_elem_of_fmap. now exists (k', ke', s').
      * apply list_elem_of_singleton. reflexivity.
Qed.

Lemma publish_published_by (posts : list (KI * V)) :
  forall face : F,
    published_by face posts (publish posts face).1 (publish posts face).2.
Proof.
  induction posts as [|[ki content] posts IH]; intros face; simpl.
  - constructor.
  - destruct (face_post content face) as [ke face1] eqn:Hpost.
    specialize (IH face1). destruct (publish posts face1) as [published face2].
    simpl in *. econstructor; eassumption.
Qed.

Lemma collect_scored_by (published : list (KI * V * KE)) (face : F) :
  forall scored : list (KI * KE * Q),
    collect published face = (scored, None) ->
    scored_by face published scored.
Proof.
  induction published as [|[[ki content] ke] published IH]; intros scored Hc; simpl in Hc.
  - injection Hc as <-. constructor.
  - destruct (face_score ke face) as [score|e] eqn:Hs; [| discriminate].
    destruct (collect published face) as [scored' err].
    injection Hc as <- ->. constructor; [exact Hs | now apply IH].
Qed.

(** A cycle that raises nothing is one iteration. *)
Lemma online_cycle_iteration (trainer : OnlineTrainer) (r r' : @OnlineRun F M KE KI V) :
  online_cycle trainer (on_logged (OnStop false) r) = (r', None) ->
  exists posts sampled published scored scores fitted,
    online_sample (generator trainer) (on_module r) = (posts, sampled) /\
    published_by (on_face r) posts published (on_face r') /\
    scored_by (on_face r') published scored /\
    is_scores_dict scored scores /\
    online_fit scores sampled = Ok fitted /\
    online_step fitted = Ok (on_module r') /\
    on_log r' =
      on_log r ++
      [OnStop false; OnSample (generator trainer); OnWait (scheduler trainer)]
        ++ map (fun '(_, content, ke) => OnPost content ke) published
        ++ map (fun '(_, ke, score) => OnScore ke score) scored
        ++ [OnFit scores; OnStep] /\
    updates (on_state r') = S (updates (on_state r)).
Proof.
  unfold online_cycle. cbn [on_module on_face on_state on_log on_logged].
  destruct (online_sample (generator trainer) (on_module r)) as [posts sampled] eqn:Hs.
  pose proof (publish_published_by posts (on_face r)) as Hpub.
  destruct (publish posts (on_face r)) as [published face1]. simpl in Hpub.
  destruct (collect published face1) as [scored err] eqn:Hc.
  destruct err as [e|]; [discriminate |].
  destruct (online_fit (scores_dict scored) sampled) as [fitted|e] eqn:Hfit; [| discriminate].
  destruct (online_step fitted) as [stepped|e] eqn:Hstep; [| discriminate].
  intros [= <-]. simpl.
  exists posts, sampled, published, scored, (scores_dict scored), fitted.
  split; [reflexivity |]. split; [exact Hpub |].
  split; [now apply collect_scored_by |].
  split; [apply scores_dict_is_scores_dict |].
  split; [exact Hfit |]. split; [exact Hstep |]. split; [| reflexivity].
  unfold post_events, score_events. list_assoc.
Qed.

Lemma online_iterations_queries (trainer : OnlineTrainer) (n : nat)
    (module module' : M) (face face' : F) (log : list (@OnlineEvent KE KI V)) :
  online_iterations trainer n module face log module' face' ->
  online_query_count log = n.
Proof.
  induction 1 as [|n module sampled fitted stepped module' face face1 face' posts
                   published scored scores log _ _ _ _ _ _ _ IH]; [reflexivity |].
  simpl. rewrite !online_query_count_app. simpl. rewrite IH.
  change (map (fun '(_, content, ke) => OnPost content ke) published)
    with (post_events published).
  change (map (fun '(_, ke, score) => OnScore ke score) scored)
    with (score_events (V:=V) scored).
  now rewrite post_events_no_query, score_events_no_query.
Qed.

(** With [MaxUpdates n] the loop ends within [n] more iterations, and when
    it returns it has made the remaining iterations and then found the
    stop condition satisfied. *)
Lemma online_loop_iterations (n g : nat) (cooldown : Q) (fuel : nat) :
  forall (r : @OnlineRun F M KE KI V),
    let trainer := {| online_stop_condition := MaxUpdates n; generator := g;
                      scheduler := cooldown |} in
    (n - updates (on_state r) < fuel)%nat ->
    snd (online_loop fuel trainer r) <> StillRunning /\
    (snd (online_loop fuel trainer r) = Returned ->
     let r' := fst (online_loop fuel trainer r) in
     (exists log,
         online_iterations trainer (n - updates (on_state r))
           (on_module r) (on_face r) log (on_module r') (on_face r') /\
         on_log r' = on_log r ++ log ++ [OnStop true]) /\
     (updates (on_state r) <= n -> updates (on_state r') = n)%nat).
Proof.
  induction fuel as [|fuel IH]; intros r trainer Hfuel; [lia |].
  subst trainer. cbn [online_loop online_stop_condition].
  change (MaxUpdates n (on_state r)) with (n <=? updates (on_state r))%nat.
  destruct (n <=? updates (on_state r))%nat eqn:Hstop.
  - apply Nat.leb_le in Hstop. simpl. split; [discriminate |]. intros _.
    replace (n - updates (on_state r))%nat with O by lia.
    split; [| lia]. exists []. split; [constructor | reflexivity].
  - apply Nat.leb_gt in Hstop.
    match goal with |- context [online_cycle ?t _] =>
      pose proof (online_cycle_iteration t r) as Hcycle;
      destruct (online_cycle t (on_logged (OnStop false) r)) as [r1 [e|]]
    end.
    + simpl. split; discriminate.
    + destruct (Hcycle r1 eq_refl)
        as (posts & sampled & published & scored & scores & fitted &
            Hsample & Hpub & Hscored & Hdict & Hfit & Hstep & Hlog & Hupd).
      specialize (IH r1). cbn zeta in IH. rewrite Hupd in IH.
      destruct IH as [Hrun Hret]; [lia |]. split; [exact Hrun |].
      intros Hreturned. cbn zeta.
      destruct (Hret Hreturned) as ((log & Hits & Hlog') & Heq).
      split; [| lia].
      replace (n - updates (on_state r))%nat with (S (n - S (updates (on_state r))))
        by lia.
      eexists. split.
      * eapply iterations_one_more; eassumption.
      * rewrite Hlog', Hlog. list_assoc.
Qed.

End OnlineIterationFacts.

(** C2: the online trainer drives cycles of sample, publish, collect
    scores, fit and step, the scheduler's gate being passed in each, and
    queries the stop condition once per iteration. With [MaxUpdates n]
    and a bound on the iterations above [n], for every module and face:
    the call does not run on; and when it returns, its log, its module
    and its face are those of [n] iterations, in each of which the
    module samples, all sampled posts are published with [face.post],
    their scores are collected with [face.score], and the module fits on
    the dictionary of these scores and steps, followed by the query that
    found the condition satisfied; so the condition was queried once in
    each of the [n] iterations and once more to halt, and it holds of the
    final state. With the notebook's face and online module and at least
    one post per cycle, the call does return. *)
Theorem online_train_cycles (n g fuel : nat) (cooldown : Q) :
  (n < fuel)%nat ->
  (forall (F M KE KI V : Type) (HD : EqDecision KI) (HF : Face F KE V)
          (HM : OnlineModule M KI V) (module : M) (face : F),
      let trainer := {| online_stop_condition := MaxUpdates n; generator := g;
                        scheduler := cooldown |} in
      let r := fst (online_train fuel trainer module face) in
      let e := snd (online_train fuel trainer module face) in
      e <> StillRunning /\
      (e = Returned ->
       (exists log,
           online_iterations trainer n module face log (on_module r) (on_face r) /\
           on_log r = log ++ [OnStop true]) /\
       online_query_count (on_log r) = S n /\
       updates (on_state r) = n /\
       online_stop_condition trainer (on_state r) = true)) /\
  (forall (module : OnlineObject) (face : MyFace.t),
      (1 <= g)%nat ->
      snd (online_train fuel
             {| online_stop_condition := MaxUpdates n; generator := g;
                scheduler := cooldown |} module face) = Returned).
Proof.
  intros Hfuel.
  assert (Hgen : forall (F M KE KI V : Type) (HD : EqDecision KI) (HF : Face F KE V)
          (HM : OnlineModule M KI V) (module : M) (face : F),
      let trainer := {| online_stop_condition := MaxUpdates n; generator := g;
                        scheduler := cooldown |} in
      let r := fst (online_train fuel trainer module face) in
      let e := snd (online_train fuel trainer module face) in
      e <> StillRunning /\
      (e = Returned ->
       (exists log,
           online_iterations trainer n module face log (on_module r) (on_face r) /\
           on_log r = log ++ [OnStop true]) /\
       online_query_count (on_log r) = S n /\
       updates (on_state r) = n /\
       online_stop_condition trainer (on_state r) = true)).
  { intros F M KE KI V HD HF HM module face trainer r e.
    pose proof (online_loop_iterations n g cooldown fuel
                  {| on_module := module; on_face := face;
                     on_state := {| epochs := 0; updates := 0 |}; on_log := [] |})
      as Hloop.
    cbn zeta in Hloop. simpl in Hloop. rewrite Nat.sub_0_r in Hloop.
    destruct Hloop as [Hrun Hret]; [lia |]. split; [exact Hrun |].
    intros Hreturned.
    destruct (Hret Hreturned) as ((log & Hits & Hlog) & Heq).
    split; [exists log; split; [exact Hits | exact Hlog] |].
    split; [| split].
    - subst r trainer. unfold online_train. rewrite Hlog, online_query_count_app.
      rewrite (online_iterations_queries _ _ _ _ _ _ _ Hits). simpl. lia.
    - apply Heq. lia.
    - subst trainer. cbn [online_stop_condition]. unfold MaxUpdates.
      apply Nat.leb_le. subst r. unfold online_train.
      rewrite Heq; [lia | simpl; lia]. }
  split; [exact Hgen |].
  intros module face Hg.
  destruct (Hgen _ _ _ _ _ _ MyFace_Face MyOnlineModule_OnlineModule module face)
    as (Hrun & _).
  pose proof (demonstrated_online_loop
                {| online_stop_condition := MaxUpdates n; generator := g;
                   scheduler := cooldown |} fuel Hg
                {| on_module := module; on_face := face;
                   on_state := {| epochs := 0; updates := 0 |}; on_log := [] |})
    as Hno.
  unfold online_train in *.
  destruct (snd (online_loop _ _ _)) as [|e|]; [reflexivity | | congruence].
  exfalso. now apply (Hno e).
Qed.

(** The notebook's online training: [MaxUpdates(100)], ten posts per
    cycle, no cooldown, an iteration bound of 101. *)
Lemma online_train_cycles_witness :
  (forall (F M KE KI V : Type) (HD : EqDecision KI) (HF : Face F KE V)
          (HM : OnlineModule M KI V) (module : M) (face : F),
      let r := fst (online_train 101 online_trainer module face) in
      let e := snd (online_train 101 online_trainer module face) in
      e <> StillRunning /\
      (e = Returned ->
       (exists log,
           online_iterations online_trainer 100 module face log (on_module r) (on_face r) /\
           on_log r = log ++ [OnStop true]) /\
       online_query_count (on_log r) = 101%nat /\
       updates (on_state r) = 100%nat /\
       online_stop_condition online_trainer (on_state r) = true)) /\
  (forall (module : OnlineObject) (face : MyFace.t),
      (1 <= 10)%nat ->
      snd (online_train 101 online_trainer module face) = Returned).
Proof.
  apply (online_train_cycles 100 10 101 0%Q). lia.
Defined.

(** C8: the trainers change the module only through its contract. The
    log of a training call records, among the trainer's other actions,
    every call it made on the module; replaying just these calls on the
    module the call was given yields exactly the module the call ends
    with. This holds for both trainers, for every module and face, every
    stop condition, and however the call ends. *)
Theorem trainers_change_module_through_contract_only :
  (forall (F M KE V : Type) (HF : Face F KE V) (HM : OfflineModule M V)
          (fuel : nat) (trainer : OfflineTrainer) (module : M) (face : F) (st : Storage),
      offline_replay (off_log (fst (offline_train fuel trainer module face st))) module =
      Ok (off_module (fst (offline_train fuel trainer module face st)))) /\
  (forall (F M KE KI V : Type) (HD : EqDecision KI) (HF : Face F KE V)
          (HM : OnlineModule M KI V)
          (fuel : nat) (trainer : OnlineTrainer) (module : M) (face : F),
      online_replay (on_log (fst (online_train fuel trainer module face))) module =
      Ok (on_module (fst (online_train fuel trainer module face)))).
Proof.
  split.
  - intros F M KE V HF HM fuel trainer module face st. unfold offline_train.
    destruct (offline_loop_frame trainer fuel
                {| off_module := module; off_face := face; off_storage := st;
                   off_state := {| epochs := 0; updates := 0 |}; off_log := [] |})
      as (tail & Hlog & Hrep & _).
    simpl in Hlog, Hrep. rewrite Hlog. exact Hrep.
  - intros F M KE KI V HD HF HM fuel trainer module face. unfold online_train.
    destruct (online_loop_frame trainer fuel
                {| on_module := module; on_face := face;
                   on_state := {| epochs := 0; updates := 0 |}; on_log := [] |})
      as (tail & Hlog & Hrep).
    simpl in Hlog, Hrep. rewrite Hlog. exact Hrep.
Qed.

(** * Further properties of the notebook's code *)

(** ** Numbers *)

Lemma Qdiv_bounds (s a b : Q) (n : Z) :
  0 < n ->
  (inject_Z n * a <= s <= inject_Z n * b)%Q ->
  (a <= s / inject_Z n <= b)%Q.
Proof.
  intros Hn [Hlo Hhi].
  assert (Hpos : (0 < inject_Z n)%Q) by (unfold Qlt, inject_Z; simpl; lia).
  split.
  - apply Qle_shift_div_l; [exact Hpos | lra].
  - apply Qle_shift_div_r; [exact Hpos | lra].
Qed.

(** ** The setter of [Model.p] *)

Lemma set_p_in_range (value : Q) (self : Model.t) :
  (0 <= value <= 1)%Q -> Model.p (Model.set_p value self) = value.
Proof.
  intros [H0 H1]. unfold Model.set_p, Model.p, py_max, py_min. simpl.
  destruct (Qltb 1 value) eqn:E1; [apply Qltb_true in E1; lra |].
  destruct (Qltb value 0) eqn:E0; [apply Qltb_true in E0; lra | reflexivity].
Qed.

(** X2: the setter is a saturating clamp: it keeps a value of [0, 1] as it
    is, stores 1 for a larger and 0 for a smaller one, ignores the value
    stored before, and setting the stored value again changes nothing. *)
Theorem set_p_saturates :
  (forall (value : Q) (self : Model.t),
      (0 <= value <= 1)%Q -> Model.p (Model.set_p value self) = value) /\
  (forall (value : Q) (self : Model.t),
      (1 < value)%Q -> Model.p (Model.set_p value self) = 1%Q) /\
  (forall (value : Q) (self : Model.t),
      (value < 0)%Q -> Model.p (Model.set_p value self) = 0%Q) /\
  (forall (value : Q) (self self' : Model.t),
      Model.set_p value self = Model.set_p value self' /\
      Model.set_p (Model.p (Model.set_p value self)) (Model.set_p value self) =
      Model.set_p value self).
Proof.
  split; [exact set_p_in_range |]. split; [| split].
  - intros value self H. unfold Model.set_p, Model.p, py_max, py_min. simpl.
    apply Qltb_true in H. rewrite H. reflexivity.
  - intros value self H. unfold Model.set_p, Model.p, py_max, py_min. simpl.
    destruct (Qltb 1 value) eqn:E1; [apply Qltb_true in E1; lra |].
    apply Qltb_true in H. now rewrite H.
  - intros value self self'. split; [reflexivity |].
    pose proof (set_p_bounds value self) as Hb.
    pose proof (set_p_in_range _ (Model.set_p value self) Hb) as Hfix.
    destruct (Model.set_p value self) as [q] eqn:Hq.
    unfold Model.p in Hfix. simpl in Hfix.
    unfold Model.set_p in *. simpl in *. f_equal. exact Hfix.
Qed.

(** X3: the setter is monotone: a larger value never stores a smaller
    parameter. *)
Theorem set_p_monotone (v w : Q) (self self' : Model.t) :
  (v <= w)%Q ->
  (Model.p (Model.set_p v self) <= Model.p (Model.set_p w self'))%Q.
Proof.
  intros Hvw. unfold Model.set_p, Model.p, py_max, py_min. simpl.
  destruct (Qltb 1 v) eqn:Ev, (Qltb 1 w) eqn:Ew;
    try apply Qltb_true in Ev; try apply Qltb_true in Ew;
    try apply Qltb_false in Ev; try apply Qltb_false in Ew;
    repeat match goal with
           | |- context [Qltb ?x ?y] =>
               let E := fresh "E" in
               destruct (Qltb x y) eqn:E;
               [apply Qltb_true in E | apply Qltb_false in E]
           end; lra.
Qed.

Lemma set_p_monotone_witness :
  (Model.p (Model.set_p (-1) (Model.init None)) <=
   Model.p (Model.set_p 0.75 (Model.init None)))%Q.
Proof.
  apply (set_p_monotone (-1) 0.75 (Model.init None) (Model.init None)). lra.
Defined.

(** ** [MyOfflineModule.fit] and [MyOfflineModule.step] *)

Lemma count_true_cons (post : bool) (posts : list bool) :
  count_true (post :: posts) = int post + count_true posts.
Proof.
  unfold count_true, len. rewrite filter_cons.
  destruct post; simpl.
  - destruct (decide (true = true)); [| congruence]. simpl. lia.
  - destruct (decide (false = true)); [discriminate | reflexivity].
Qed.

Lemma count_true_bounds (posts : list bool) : 0 <= count_true posts <= len posts.
Proof.
  induction posts as [|post posts IH].
  - unfold count_true, len. simpl. lia.
  - rewrite count_true_cons.
    replace (len (post :: posts)) with (len posts + 1) by (unfold len; simpl; lia).
    destruct post; simpl; lia.
Qed.

Lemma fold_left_int_sum (posts : list bool) :
  forall acc : Q,
    (fold_left Qplus (map (fun post => inject_Z (int post)) posts) acc ==
     acc + inject_Z (count_true posts))%Q.
Proof.
  induction posts as [|post posts IH]; intros acc.
  - change (count_true []) with 0. simpl. change (inject_Z 0) with 0%Q. ring.
  - simpl. rewrite IH, count_true_cons, inject_Z_plus. ring.
Qed.

Lemma fraction_in_unit (c n : Z) :
  0 <= c <= n -> 0 < n -> (0 <= inject_Z c / inject_Z n <= 1)%Q.
Proof.
  intros Hc Hn. apply Qdiv_bounds; [exact Hn |].
  rewrite Qmult_0_r, Qmult_1_r. unfold Qle, inject_Z. simpl. lia.
Qed.

(** The estimate [fit] computes from a non-empty batch. *)
Lemma offline_fit_estimate (posts : list bool) (self : MyOfflineModule.t)
    (model : Model.t) :
  posts <> [] ->
  exists p_est,
    MyOfflineModule.fit posts self model =
      Ok {| MyOfflineModule.deltas :=
              MyOfflineModule.deltas self ++ [(p_est - Model.p model)%Q];
            MyOfflineModule.alpha := MyOfflineModule.alpha self |} /\
    (p_est == inject_Z (count_true posts) / inject_Z (len posts))%Q /\
    (0 <= p_est <= 1)%Q.
Proof.
  intros Hne. unfold MyOfflineModule.fit.
  rewrite py_div_ok by (rewrite len_nil_iff; exact Hne).
  eexists. split; [reflexivity |].
  assert (Heq : (py_sum (map (fun post => inject_Z (int post)) posts) / inject_Z (len posts)
                 == inject_Z (count_true posts) / inject_Z (len posts))%Q).
  { unfold py_sum. rewrite fold_left_int_sum. now rewrite Qplus_0_l. }
  split; [exact Heq |]. rewrite Heq.
  apply fraction_in_unit; [apply count_true_bounds | now apply len_pos].
Qed.

(** X4: [fit] of the offline module raises ZeroDivisionError on an empty
    batch; on a non-empty batch it appends one delta to those already
    there, the fraction of [True] posts of the batch minus the current
    parameter, and that fraction is in [0, 1]. *)
Theorem offline_fit_estimate_or_error :
  (forall (self : MyOfflineModule.t) (model : Model.t),
      MyOfflineModule.fit [] self model = Raise ZeroDivisionError) /\
  (forall (post : bool) (posts : list bool) (self : MyOfflineModule.t) (model : Model.t),
      exists p_est,
        MyOfflineModule.fit (post :: posts) self model =
          Ok {| MyOfflineModule.deltas :=
                  MyOfflineModule.deltas self ++ [(p_est - Model.p model)%Q];
                MyOfflineModule.alpha := MyOfflineModule.alpha self |} /\
        (p_est == inject_Z (count_true (post :: posts)) / inject_Z (len (post :: posts)))%Q /\
        (0 <= p_est <= 1)%Q).
Proof.
  split; [reflexivity |].
  intros post posts self model. now apply offline_fit_estimate.
Qed.

Lemma py_min_le_l (a b : Q) : (py_min a b <= a)%Q.
Proof.
  unfold py_min. destruct (Qltb b a) eqn:E; [| lra].
  apply Qltb_true in E. lra.
Qed.

Lemma set_p_le (value q : Q) (self : Model.t) :
  (value <= q)%Q -> (0 <= q)%Q -> (Model.p (Model.set_p value self) <= q)%Q.
Proof.
  intros Hv H0. unfold Model.set_p, Model.p. simpl.
  apply py_max_le; [| exact H0].
  eapply Qle_trans; [apply py_min_le_l | exact Hv].
Qed.

(** X5: one fit on a non-empty batch followed by a step never moves the
    parameter away from the batch's estimate: with no delta pending, a
    parameter in [0, 1] and a step size that is not negative, both calls
    succeed, the deltas are reset, and the new parameter is at least the
    old one when the fraction of [True] posts of the batch is at least
    the old parameter, at most the old one when the fraction is at most
    the old parameter, and in [0, 1]. *)
Theorem offline_fit_step_moves_towards_estimate
    (posts : list bool) (self : MyOfflineModule.t) (model : Model.t) :
  posts <> [] ->
  MyOfflineModule.deltas self = [] ->
  (0 <= Model.p model <= 1)%Q ->
  (0 <= MyOfflineModule.alpha self)%Q ->
  exists fitted stepped model',
    MyOfflineModule.fit posts self model = Ok fitted /\
    MyOfflineModule.step fitted model = Ok (stepped, model') /\
    MyOfflineModule.deltas stepped = [] /\
    let p_est := (inject_Z (count_true posts) / inject_Z (len posts))%Q in
    (Model.p model <= p_est -> Model.p model <= Model.p model')%Q /\
    (p_est <= Model.p model -> Model.p model' <= Model.p model)%Q /\
    (0 <= Model.p model' <= 1)%Q.
Proof.
  intros Hne Hd Hp Ha.
  destruct (offline_fit_estimate posts self model Hne) as (p_est & Hfit & Hest & Hunit).
  rewrite Hd in Hfit. simpl in Hfit.
  set (delta := (p_est - Model.p model)%Q) in *.
  set (value := (Model.p model + MyOfflineModule.alpha self *
                   (py_sum [delta] / inject_Z (len [delta])))%Q).
  exists {| MyOfflineModule.deltas := [delta];
            MyOfflineModule.alpha := MyOfflineModule.alpha self |},
         {| MyOfflineModule.deltas := [];
            MyOfflineModule.alpha := MyOfflineModule.alpha self |},
         (Model.set_p value model).
  split; [exact Hfit |]. split; [| split; [reflexivity |]].
  - unfold MyOfflineModule.step. cbn [MyOfflineModule.deltas MyOfflineModule.alpha].
    rewrite mean_ok by discriminate. reflexivity.
  - cbn zeta. rewrite <- Hest.
    assert (Hval : (value == Model.p model +
                              MyOfflineModule.alpha self * (p_est - Model.p model))%Q).
    { subst value delta. unfold py_sum. simpl.
      change (inject_Z (len [(p_est - Model.p model)%Q])) with 1%Q. field. }
    split; [| split; [| apply set_p_bounds]].
    + intros Hle. apply set_p_ge; [| lra]. rewrite Hval. nra.
    + intros Hle. apply set_p_le; [| lra]. rewrite Hval. nra.
Qed.

(** A batch with one [True] post of three, the notebook's model and step
    size. *)
Lemma offline_fit_step_moves_towards_estimate_witness :
  exists fitted stepped model',
    MyOfflineModule.fit [true; false; false] (MyOfflineModule.init None) (Model.init None)
      = Ok fitted /\
    MyOfflineModule.step fitted (Model.init None) = Ok (stepped, model') /\
    MyOfflineModule.deltas stepped = [] /\
    let p_est := (inject_Z (count_true [true; false; false]) /
                  inject_Z (len [true; false; false]))%Q in
    (Model.p (Model.init None) <= p_est -> Model.p (Model.init None) <= Model.p model')%Q /\
    (p_est <= Model.p (Model.init None) -> Model.p model' <= Model.p (Model.init None))%Q /\
    (0 <= Model.p model' <= 1)%Q.
Proof.
  apply (offline_fit_step_moves_towards_estimate [true; false; false]
           (MyOfflineModule.init None) (Model.init None)).
  - discriminate.
  - reflexivity.
  - unfold Model.init, Model.p. simpl. lra.
  - simpl. lra.
Defined.

(** ** [MyOnlineModule.fit] *)

Lemma dict_set_keys {K W : Type} `{EqDecision K} (k : K) (v : W) (d : list (K * W)) :
  (forall x, x ∈ (dict_set k v d).*1 <-> x = k \/ x ∈ d.*1) /\
  (NoDup d.*1 -> NoDup (dict_set k v d).*1).
Proof.
  induction d as [|[k' v'] d [IHin IHnd]]; simpl.
  - split.
    + intros x. rewrite list_elem_of_singleton, elem_of_nil. tauto.
    + intros _. apply NoDup_singleton.
  - destruct (decide (k = k')) as [->|Hne]; simpl.
    + split; [| auto]. intros x. rewrite elem_of_cons. tauto.
    + split.
      * intros x. rewrite !elem_of_cons, IHin. tauto.
      * rewrite !NoDup_cons. intros [Hnotin Hnd]. split; [| auto].
        rewrite IHin. intros [->|Hin]; [congruence | contradiction].
Qed.

(** The keys of the content-keyed dictionary: no key twice, and exactly
    the keys it started with and the contents the scores refer to. *)
Lemma by_content_keys (posts : gmap Z bool) (scores : list (Z * Q)) :
  forall acc d : list (bool * Q),
    MyOnlineModule.by_content posts scores acc = Ok d ->
    (NoDup acc.*1 -> NoDup d.*1) /\
    (forall x, x ∈ d.*1 <-> x ∈ acc.*1 \/ x ∈ scored_contents posts scores).
Proof.
  induction scores as [|[post_id score] scores IH]; intros acc d Hd; simpl in Hd.
  - injection Hd as <-. split; [auto |]. intros x. unfold scored_contents. simpl.
    rewrite elem_of_nil. tauto.
  - unfold scored_contents. simpl.
    destruct (posts !! post_id) as [c|] eqn:Hl; [| discriminate].
    destruct (IH _ _ Hd) as [IHnd IHin].
    destruct (dict_set_keys c score acc) as [Hin Hnd].
    split; [auto |]. intros x. rewrite IHin, Hin, elem_of_cons.
    unfold scored_contents. tauto.
Qed.

(** The delta of [fit] under the demonstrated scoring, by the contents
    that occur among the scored posts. *)
Lemma online_fit_delta
    (scores : list (Z * Q)) (self : MyOnlineModule.t) (model : Model.t) :
  demonstrated_scoring (MyOnlineModule.posts self) scores ->
  scores <> [] ->
  let contents := scored_contents (MyOnlineModule.posts self) scores in
  exists delta,
    MyOnlineModule.fit scores self model =
      Ok {| MyOnlineModule.deltas := MyOnlineModule.deltas self ++ [delta];
            MyOnlineModule.alpha := MyOnlineModule.alpha self;
            MyOnlineModule.posts := MyOnlineModule.posts self;
            MyOnlineModule.i := MyOnlineModule.i self |} /\
    (true ∈ contents -> false ∉ contents -> (delta == 1 - Model.p model)%Q) /\
    (false ∈ contents -> true ∉ contents -> (delta == Model.p model)%Q) /\
    (true ∈ contents -> false ∈ contents -> (delta == 1 # 2)%Q).
Proof.
  intros Hdemo Hne contents.
  destruct (by_content_demonstrated _ scores [] Hdemo) as (d & Hd & Hsc & Hdne);
    [constructor | now left |].
  destruct (by_content_keys _ _ _ _ Hd) as [Hnd Hin].
  specialize (Hnd (NoDup_nil_2 (A:=bool))). fold contents in Hin.
  assert (Hkeys : forall x, x ∈ d.*1 <-> x ∈ contents).
  { intros x. rewrite Hin. simpl. rewrite elem_of_nil. tauto. }
  unfold MyOnlineModule.fit. rewrite Hd. cbn [mbind result_bind].
  rewrite py_div_ok by (rewrite len_nil_iff; exact Hdne). cbn [mbind result_bind].
  eexists. split; [reflexivity |].
  unfold scored_by_content in Hsc.
  destruct d as [|[k1 v1] [|[k2 v2] [|[k3 v3] d]]]; [congruence | | |].
  - (* one content *)
    inversion Hsc as [|? ? Hv1 _]; subst. clear Hsc.
    assert (Hk1 : forall x, x ∈ contents <-> x = k1).
    { intros x. rewrite <- Hkeys. simpl. apply list_elem_of_singleton. }
    unfold py_sum. simpl. change (inject_Z (len [(k1, inject_Z (int k1 * 2 - 1))])) with 1%Q.
    destruct k1; cbn [int];
      [change (inject_Z (1 * 2 - 1)) with 1%Q; change (inject_Z 1) with 1%Q
      |change (inject_Z (0 * 2 - 1)) with (-1 # 1)%Q; change (inject_Z 0) with 0%Q].
    + split; [intros _ _; field |]. split.
      * intros Hf. apply Hk1 in Hf. discriminate.
      * intros _ Hf. apply Hk1 in Hf. discriminate.
    + split; [intros Ht; apply Hk1 in Ht; discriminate |]. split.
      * intros _ _. field.
      * intros Ht. apply Hk1 in Ht. discriminate.
  - (* both contents *)
    inversion Hsc as [|? ? Hv1 Hsc']; subst. inversion Hsc' as [|? ? Hv2 _]; subst.
    clear Hsc Hsc'.
    assert (Hne12 : k1 <> k2).
    { simpl in Hnd. apply NoDup_cons in Hnd. destruct Hnd as [Hn _].
      intros ->. apply Hn. apply list_elem_of_singleton. reflexivity. }
    assert (Ht : true ∈ contents).
    { apply Hkeys. simpl. destruct k1, k2; try congruence;
        rewrite !elem_of_cons; auto. }
    assert (Hf : false ∈ contents).
    { apply Hkeys. simpl. destruct k1, k2; try congruence;
        rewrite !elem_of_cons; auto. }
    split; [intros _ Hn; contradiction |]. split; [intros _ Hn; contradiction |].
    intros _ _. unfold py_sum. simpl.
    change (inject_Z (len [(k1, inject_Z (int k1 * 2 - 1)); (k2, inject_Z (int k2 * 2 - 1))]))
      with 2%Q.
    destruct k1, k2; try congruence; cbn [int];
      change (inject_Z (1 * 2 - 1)) with 1%Q; change (inject_Z 1) with 1%Q;
      change (inject_Z (0 * 2 - 1)) with (-1 # 1)%Q; change (inject_Z 0) with 0%Q;
      field.
  - (* a third entry would repeat a content *)
    exfalso. simpl in Hnd. rewrite !NoDup_cons in Hnd.
    destruct Hnd as (H1 & H2 & _). rewrite !elem_of_cons in H1, H2.
    clear - H1 H2. destruct k1, k2, k3; set_solver.
Qed.

(** X6: under the demonstrated scoring, the delta [fit] appends depends
    only on which contents occur among the scored posts, not on how many
    posts there are of each: it is 1 - p when all are [True], p when all
    are [False], and one half when both occur. *)
Theorem online_fit_delta_by_contents
    (scores : list (Z * Q)) (self : MyOnlineModule.t) (model : Model.t) :
  demonstrated_scoring (MyOnlineModule.posts self) scores ->
  scores <> [] ->
  let contents := scored_contents (MyOnlineModule.posts self) scores in
  exists delta,
    MyOnlineModule.fit scores self model =
      Ok {| MyOnlineModule.deltas := MyOnlineModule.deltas self ++ [delta];
            MyOnlineModule.alpha := MyOnlineModule.alpha self;
            MyOnlineModule.posts := MyOnlineModule.posts self;
            MyOnlineModule.i := MyOnlineModule.i self |} /\
    (true ∈ contents -> false ∉ contents -> (delta == 1 - Model.p model)%Q) /\
    (false ∈ contents -> true ∉ contents -> (delta == Model.p model)%Q) /\
    (true ∈ contents -> false ∈ contents -> (delta == 1 # 2)%Q).
Proof. apply online_fit_delta. Qed.

(** Seven posts, five of them [True]: the delta is one half. *)
Lemma online_fit_delta_by_contents_witness :
  let self := snd (MyOnlineModule.sample [true; true; false; true; true; false; true]
                     (MyOnlineModule.init None)) in
  let scores := [(0, inject_Z 1); (1, inject_Z 1); (2, inject_Z (-1)); (3, inject_Z 1);
                 (4, inject_Z 1); (5, inject_Z (-1)); (6, inject_Z 1)] in
  let contents := scored_contents (MyOnlineModule.posts self) scores in
  exists delta,
    MyOnlineModule.fit scores self (Model.init None) =
      Ok {| MyOnlineModule.deltas := MyOnlineModule.deltas self ++ [delta];
            MyOnlineModule.alpha := MyOnlineModule.alpha self;
            MyOnlineModule.posts := MyOnlineModule.posts self;
            MyOnlineModule.i := MyOnlineModule.i self |} /\
    (true ∈ contents -> false ∉ contents -> (delta == 1 - Model.p (Model.init None))%Q) /\
    (false ∈ contents -> true ∉ contents -> (delta == Model.p (Model.init None))%Q) /\
    (true ∈ contents -> false ∈ contents -> (delta == 1 # 2)%Q).
Proof.
  apply (online_fit_delta_by_contents
           [(0, inject_Z 1); (1, inject_Z 1); (2, inject_Z (-1)); (3, inject_Z 1);
            (4, inject_Z 1); (5, inject_Z (-1)); (6, inject_Z 1)]
           (snd (MyOnlineModule.sample [true; true; false; true; true; false; true]
                   (MyOnlineModule.init None)))
           (Model.init None)).
  - repeat constructor; (exists true; split; reflexivity) || (exists false; split; reflexivity).
  - discriminate.
Defined.

Lemma by_content_unknown (posts : gmap Z bool) (known : list (Z * Q)) :
  forall (post_id : Z) (score : Q) (rest : list (Z * Q)) (acc : list (bool * Q)),
    Forall (fun '(k, _) => is_Some (posts !! k)) known ->
    posts !! post_id = None ->
    MyOnlineModule.by_content posts (known ++ (post_id, score) :: rest) acc =
    Raise (KeyError post_id).
Proof.
  induction known as [|[k s] known IH]; intros post_id score rest acc Hk Hn; simpl.
  - now rewrite Hn.
  - inversion Hk as [|? ? Hhd Hk']; subst. destruct Hhd as [c Hc].
    rewrite Hc. now apply IH.
Qed.

(** X7: [fit] of the online module raises ZeroDivisionError on an empty
    dictionary of scores, and KeyError on the first identifier, in
    iteration order, that the module has not sampled, whatever follows
    it. *)
Theorem online_fit_errors
    (known : list (Z * Q)) (post_id : Z) (score : Q) (rest : list (Z * Q))
    (self : MyOnlineModule.t) (model : Model.t) :
  Forall (fun '(k, _) => is_Some (MyOnlineModule.posts self !! k)) known ->
  MyOnlineModule.posts self !! post_id = None ->
  MyOnlineModule.fit (known ++ (post_id, score) :: rest) self model =
    Raise (KeyError post_id) /\
  MyOnlineModule.fit [] self model = Raise ZeroDivisionError.
Proof.
  intros Hk Hn. split; [| reflexivity].
  unfold MyOnlineModule.fit. now rewrite by_content_unknown.
Qed.

(** The module sampled posts 0 and 1; a score for identifier 101, as the
    face would number a post, is not one of its own. *)
Lemma online_fit_errors_witness :
  let self := snd (MyOnlineModule.sample [true; false] (MyOnlineModule.init None)) in
  MyOnlineModule.fit ([(0, inject_Z 1)] ++ (101, inject_Z 1) :: [(1, inject_Z (-1))])
    self (Model.init None) = Raise (KeyError 101) /\
  MyOnlineModule.fit [] self (Model.init None) = Raise ZeroDivisionError.
Proof.
  apply (online_fit_errors [(0, inject_Z 1)] 101 (inject_Z 1) [(1, inject_Z (-1))]
           (snd (MyOnlineModule.sample [true; false] (MyOnlineModule.init None)))
           (Model.init None)).
  - repeat constructor. now exists true.
  - reflexivity.
Defined.

(** ** [MyOnlineModule.sample] *)

Lemma sample_closed_form (drawn : list bool) :
  forall self : MyOnlineModule.t,
    let '(items, self') := MyOnlineModule.sample drawn self in
    items = imap (fun j post => (MyOnlineModule.i self + Z.of_nat j, post)) drawn /\
    MyOnlineModule.i self' = MyOnlineModule.i self + len drawn /\
    MyOnlineModule.deltas self' = MyOnlineModule.deltas self /\
    MyOnlineModule.alpha self' = MyOnlineModule.alpha self /\
    forall k : Z,
      MyOnlineModule.posts self' !! k =
      if decide (MyOnlineModule.i self <= k < MyOnlineModule.i self + len drawn)
      then drawn !! Z.to_nat (k - MyOnlineModule.i self)
      else MyOnlineModule.posts self !! k.
Proof.
  induction drawn as [|post rest IH]; intros self.
  - simpl. repeat split; try (unfold len; simpl; lia).
    intros k. unfold len. simpl. destruct (decide _); [lia | reflexivity].
  - cbn [MyOnlineModule.sample].
    match goal with |- context [MyOnlineModule.sample rest ?s] =>
      specialize (IH s); destruct (MyOnlineModule.sample rest s) as [items self'] end.
    cbn [MyOnlineModule.i MyOnlineModule.deltas MyOnlineModule.alpha MyOnlineModule.posts] in IH.
    destruct IH as (Hitems & Hi & Hd & Ha & Hposts).
    replace (len (post :: rest)) with (len rest + 1) by (unfold len; simpl; lia).
    split; [| split; [lia | split; [exact Hd | split; [exact Ha |]]]].
    + rewrite Hitems. cbn [imap]. f_equal; [f_equal; lia |].
      apply imap_ext. intros j x _. simpl. f_equal. lia.
    + intros k. rewrite Hposts.
      destruct (decide (MyOnlineModule.i self + 1 <= k < MyOnlineModule.i self + 1 + len rest))
        as [Hin|Hout].
      * destruct (decide _) as [_|Hn]; [| lia].
        replace (Z.to_nat (k - MyOnlineModule.i self))
          with (S (Z.to_nat (k - (MyOnlineModule.i self + 1)))) by lia.
        reflexivity.
      * destruct (decide (k = MyOnlineModule.i self)) as [->|Hne].
        -- rewrite lookup_insert_eq.
           destruct (decide _) as [_|Hn]; [| unfold len in *; lia].
           now rewrite Z.sub_diag.
        -- rewrite lookup_insert_ne by congruence.
           destruct (decide _) as [Hin|_]; [lia | reflexivity].
Qed.

(** X9: [sample] run to exhaustion yields the drawn posts under
    consecutive identifiers starting at the module's index, advances the
    index by their number, stores each post under its identifier (and
    only there: every other entry of the module's posts is as before),
    and leaves the deltas and the step size alone. *)
Theorem sample_consecutive_ids_stored (drawn : list bool) (self : MyOnlineModule.t) :
  let '(items, self') := MyOnlineModule.sample drawn self in
  items = imap (fun j post => (MyOnlineModule.i self + Z.of_nat j, post)) drawn /\
  MyOnlineModule.i self' = MyOnlineModule.i self + len drawn /\
  MyOnlineModule.deltas self' = MyOnlineModule.deltas self /\
  MyOnlineModule.alpha self' = MyOnlineModule.alpha self /\
  forall k : Z,
    MyOnlineModule.posts self' !! k =
    if decide (MyOnlineModule.i self <= k < MyOnlineModule.i self + len drawn)
    then drawn !! Z.to_nat (k - MyOnlineModule.i self)
    else MyOnlineModule.posts self !! k.
Proof. apply sample_closed_form. Qed.

(** X10: sampling composes: two samples in a row yield, and leave the
    module with, what one sample of the two draws together does; so the
    identifiers of successive samples continue each other and never
    repeat. *)
Theorem sample_app (drawn1 drawn2 : list bool) (self : MyOnlineModule.t) :
  MyOnlineModule.sample (drawn1 ++ drawn2) self =
  (let '(items1, self1) := MyOnlineModule.sample drawn1 self in
   let '(items2, self2) := MyOnlineModule.sample drawn2 self1 in
   (items1 ++ items2, self2)) /\
  NoDup (MyOnlineModule.sample (drawn1 ++ drawn2) self).1.*1.
Proof.
  split.
  - revert self. induction drawn1 as [|post rest IH]; intros self.
    + simpl. now destruct (MyOnlineModule.sample drawn2 self).
    + cbn [app MyOnlineModule.sample]. rewrite IH.
      destruct (MyOnlineModule.sample rest _) as [items1 self1].
      destruct (MyOnlineModule.sample drawn2 self1) as [items2 self2].
      reflexivity.
  - pose proof (sample_closed_form (drawn1 ++ drawn2) self) as H.
    destruct (MyOnlineModule.sample (drawn1 ++ drawn2) self) as [items self'].
    destruct H as (-> & _). simpl.
    generalize (drawn1 ++ drawn2) as drawn. generalize (MyOnlineModule.i self) as i0.
    intros i0 drawn. revert i0. induction drawn as [|post drawn IH]; intros i0.
    + constructor.
    + cbn [imap fmap list_fmap]. apply NoDup_cons. split.
      * rewrite list_elem_of_fmap. intros ([k c] & Hk & Hin). simpl in Hk.
        apply elem_of_lookup_imap in Hin. destruct Hin as (j & x & Heq & _).
        injection Heq as -> _. simpl in Hk. lia.
      * specialize (IH (i0 + 1)).
        erewrite imap_ext; [exact IH |]. intros j x _. simpl. f_equal. lia.
Qed.

(** ** The generator of [sample] *)

Lemma sample_cons (post : bool) (rest : list bool) (self : MyOnlineModule.t) :
  MyOnlineModule.sample (post :: rest) self =
  ((MyOnlineModule.i self, post) ::
     (MyOnlineModule.sample rest (sample_resume (sample_store post self))).1,
   (MyOnlineModule.sample rest (sample_resume (sample_store post self))).2).
Proof.
  cbn [MyOnlineModule.sample]. unfold sample_resume, sample_store.
  cbn [MyOnlineModule.deltas MyOnlineModule.alpha MyOnlineModule.posts MyOnlineModule.i].
  now destruct (MyOnlineModule.sample rest _).
Qed.

Lemma sample_take_S (pulls : nat) (g : sample_gen) (self : MyOnlineModule.t) :
  sample_take (S pulls) g self =
  match sample_next g self with
  | (None, g', self') => ([], g', self')
  | (Some item, g', self') =>
      let '(items, g'', self'') := sample_take pulls g' self' in
      (item :: items, g'', self'')
  end.
Proof. reflexivity. Qed.

(** A suspended generator asked until it is exhausted. *)
Lemma sample_take_yielded_all (rest : list bool) :
  forall self : MyOnlineModule.t,
    sample_take (S (length rest)) (SampleYielded rest) self =
    ((MyOnlineModule.sample rest (sample_resume self)).1, SampleFinished,
     (MyOnlineModule.sample rest (sample_resume self)).2).
Proof.
  induction rest as [|post rest IH]; intros self; [reflexivity |].
  cbn [length]. rewrite sample_take_S. cbn [sample_next sample_loop].
  rewrite IH, sample_cons. reflexivity.
Qed.

(** A suspended generator asked [pulls] times, not more often than it has
    posts left. *)
Lemma sample_take_yielded (pulls : nat) :
  forall (rest : list bool) (self : MyOnlineModule.t),
    (pulls <= length rest)%nat ->
    (sample_take pulls (SampleYielded rest) self).1.1 =
      take pulls (MyOnlineModule.sample rest (sample_resume self)).1 /\
    MyOnlineModule.i (sample_take pulls (SampleYielded rest) self).2 =
      MyOnlineModule.i self + Z.of_nat pulls.
Proof.
  induction pulls as [|pulls IH]; intros rest self Hle.
  - simpl. split; [reflexivity | lia].
  - destruct rest as [|post rest]; [simpl in Hle; lia |].
    rewrite sample_take_S. cbn [sample_next sample_loop].
    destruct (IH rest (sample_store post (sample_resume self))) as [Hitems Hi];
      [simpl in Hle; lia |].
    destruct (sample_take pulls (SampleYielded rest) _) as [[items g] self'].
    rewrite sample_cons. simpl in *. split; [now rewrite Hitems | lia].
Qed.

(** X11: the generator of [sample], asked until it is exhausted, yields
    the items and leaves the module that [sample] run to exhaustion
    describes. *)
Theorem sample_generator_exhausted (drawn : list bool) (self : MyOnlineModule.t) :
  sample_take (S (length drawn)) (SampleCreated drawn) self =
  ((MyOnlineModule.sample drawn self).1, SampleFinished,
   (MyOnlineModule.sample drawn self).2).
Proof.
  destruct drawn as [|post rest]; [reflexivity |].
  cbn [length]. rewrite sample_take_S. cbn [sample_next sample_loop].
  rewrite sample_take_yielded_all, sample_cons. reflexivity.
Qed.

(** X12: a generator of [sample] abandoned after [k >= 1] of its items
    has yielded the first [k] items, but has not advanced the index past
    the last of them: the index is left at the identifier of the last
    item yielded, so the first post of the next sample takes that
    identifier and replaces the post stored under it. *)
Theorem sample_generator_abandoned
    (drawn : list bool) (k : nat) (self : MyOnlineModule.t) (post : bool)
    (next : list bool) :
  (1 <= k <= length drawn)%nat ->
  let '(items, _, self') := sample_take k (SampleCreated drawn) self in
  items = take k (MyOnlineModule.sample drawn self).1 /\
  MyOnlineModule.i self' = MyOnlineModule.i self + Z.of_nat k - 1 /\
  last items.*1 = Some (MyOnlineModule.i self') /\
  head (MyOnlineModule.sample (post :: next) self').1 = Some (MyOnlineModule.i self', post) /\
  MyOnlineModule.posts (MyOnlineModule.sample (post :: next) self').2
    !! MyOnlineModule.i self' = Some post.
Proof.
  intros [Hk1 Hk]. destruct k as [|k]; [lia |].
  destruct drawn as [|first rest]; [simpl in Hk; lia |].
  rewrite sample_take_S. cbn [sample_next sample_loop].
  destruct (sample_take_yielded k rest (sample_store first self)) as [Hitems Hi];
    [simpl in Hk; lia |].
  destruct (sample_take k (SampleYielded rest) (sample_store first self))
    as [[items g] self'].
  simpl in Hitems, Hi.
  assert (Htake : (MyOnlineModule.i self, first) :: items =
                  take (S k) (MyOnlineModule.sample (first :: rest) self).1).
  { rewrite sample_cons. cbn [fst take]. now rewrite Hitems. }
  split; [exact Htake |]. split; [lia |]. split; [| split].
  - rewrite Htake.
    pose proof (sample_closed_form (first :: rest) self) as Hcf.
    destruct (MyOnlineModule.sample (first :: rest) self) as [all self_all].
    destruct Hcf as (-> & _). cbn [fst].
    rewrite last_lookup, fmap_take, length_take, length_fmap, length_imap.
    replace (Init.Nat.pred (S k `min` length (first :: rest))) with k by lia.
    rewrite lookup_take_lt by lia. rewrite list_lookup_fmap, list_lookup_imap.
    destruct ((first :: rest) !! k) as [x|] eqn:Hx.
    + simpl. f_equal. lia.
    + apply lookup_ge_None in Hx. lia.
  - rewrite sample_cons. reflexivity.
  - pose proof (sample_closed_form (post :: next) self') as Hcf.
    destruct (MyOnlineModule.sample (post :: next) self') as [items' self''].
    destruct Hcf as (_ & _ & _ & _ & Hposts). cbn [snd]. rewrite Hposts.
    destruct (decide _) as [_|Hn]; [| unfold len in Hn; simpl in Hn; lia].
    now rewrite Z.sub_diag.
Qed.

(** Three posts drawn, the generator abandoned after the second. *)
Lemma sample_generator_abandoned_witness :
  let '(items, _, self') :=
    sample_take 2 (SampleCreated [true; false; true]) (MyOnlineModule.init None) in
  items = take 2 (MyOnlineModule.sample [true; false; true] (MyOnlineModule.init None)).1 /\
  MyOnlineModule.i self' = MyOnlineModule.i (MyOnlineModule.init None) + Z.of_nat 2 - 1 /\
  last items.*1 = Some (MyOnlineModule.i self') /\
  head (MyOnlineModule.sample (true :: [false]) self').1 = Some (MyOnlineModule.i self', true) /\
  MyOnlineModule.posts (MyOnlineModule.sample (true :: [false]) self').2
    !! MyOnlineModule.i self' = Some true.
Proof.
  apply (sample_generator_abandoned [true; false; true] 2 (MyOnlineModule.init None)
           true [false]).
  simpl. lia.
Defined.

(** ** [MyFace] *)

Lemma posts_closed_form (datas : list bool) :
  forall self : MyFace.t,
    let '(evs, self') := face_run (map Post datas) self in
    evs = imap (fun j data => Posted (MyFace.i self + Z.of_nat j) data) datas /\
    MyFace.i self' = MyFace.i self + len datas /\
    forall k : Z,
      MyFace.posts self' !! k =
      if decide (MyFace.i self <= k < MyFace.i self + len datas)
      then datas !! Z.to_nat (k - MyFace.i self)
      else MyFace.posts self !! k.
Proof.
  induction datas as [|data datas IH]; intros self.
  - simpl. split; [reflexivity |]. split; [unfold len; simpl; lia |].
    intros k. unfold len. simpl. destruct (decide _); [lia | reflexivity].
  - cbn [map face_run face_op_run MyFace.post].
    match goal with |- context [face_run (map Post datas) ?s] =>
      specialize (IH s); destruct (face_run (map Post datas) s) as [evs self'] end.
    cbn [MyFace.i MyFace.posts] in IH. destruct IH as (-> & Hi & Hposts).
    replace (len (data :: datas)) with (len datas + 1) by (unfold len; simpl; lia).
    split; [| split; [lia |]].
    + cbn [app imap]. f_equal; [f_equal; lia |].
      apply imap_ext. intros j x _. simpl. f_equal. lia.
    + intros k. rewrite Hposts.
      destruct (decide (MyFace.i self + 1 <= k < MyFace.i self + 1 + len datas)) as [Hin|Hout].
      * destruct (decide _) as [_|Hn]; [| lia].
        replace (Z.to_nat (k - MyFace.i self))
          with (S (Z.to_nat (k - (MyFace.i self + 1)))) by lia.
        reflexivity.
      * destruct (decide (k = MyFace.i self)) as [->|Hne].
        -- rewrite lookup_insert_eq.
           destruct (decide _) as [_|Hn]; [| unfold len in *; lia].
           now rewrite Z.sub_diag.
        -- rewrite lookup_insert_ne by congruence.
           destruct (decide _) as [Hin|_]; [lia | reflexivity].
Qed.

(** X13: after any number of posts in a row, from any state of the face,
    the identifiers returned are consecutive from the counter, the
    counter has advanced by their number, every returned identifier
    scores by the content posted under it (+1 for True, -1 for False),
    and no other entry of the face's posts has changed. *)
Theorem posts_in_a_row_score_own_content (datas : list bool) (self : MyFace.t) :
  let '(evs, self') := face_run (map Post datas) self in
  identifiers evs = imap (fun j _ => MyFace.i self + Z.of_nat j) datas /\
  MyFace.i self' = MyFace.i self + len datas /\
  map (fun post_id => MyFace.score post_id self') (identifiers evs) =
    map (fun data : bool => Ok (if data then 1 else -1)) datas /\
  forall k : Z,
    MyFace.posts self' !! k =
    if decide (MyFace.i self <= k < MyFace.i self + len datas)
    then datas !! Z.to_nat (k - MyFace.i self)
    else MyFace.posts self !! k.
Proof.
  pose proof (posts_closed_form datas self) as H.
  destruct (face_run (map Post datas) self) as [evs self'].
  destruct H as (-> & Hi & Hposts).
  assert (Hids : identifiers (imap (fun j data => Posted (MyFace.i self + Z.of_nat j) data) datas)
                 = imap (fun j _ => MyFace.i self + Z.of_nat j) datas).
  { unfold identifiers. change (map event_id ?l) with (event_id <$> l).
    rewrite fmap_imap. reflexivity. }
  split; [exact Hids |]. split; [exact Hi |]. split; [| exact Hposts].
  rewrite Hids. apply list_eq. intros j.
  change (map ?f ?l) with (f <$> l).
  rewrite !list_lookup_fmap, list_lookup_imap.
  destruct (datas !! j) as [data|] eqn:Hj; [| reflexivity].
  simpl. f_equal. unfold MyFace.score. rewrite Hposts.
  apply lookup_lt_Some in Hj as Hlt.
  destruct (decide _) as [_|Hn]; [| unfold len in Hn; lia].
  replace (Z.to_nat (MyFace.i self + Z.of_nat j - MyFace.i self)) with j by lia.
  rewrite Hj. now destruct data.
Qed.

(** X14: every scraping that is started puts the counter back to n + 1,
    whatever was posted before. So a post made after a second scraping
    of the same limit gets the identifier n + 1 that the post after the
    first scraping got, replaces its content, and the score of that
    identifier is now the second post's. *)
Theorem post_after_rescrap_reuses_identifier
    (limit : option Z) (pulls1 pulls2 : nat) (data1 data2 : bool) (self : MyFace.t) :
  let n := py_or limit 100 in
  let '(evs, self') :=
    face_run [Scrap limit (S pulls1); Post data1; Scrap limit (S pulls2); Post data2] self in
  posted_ids evs = [n + 1; n + 1] /\
  MyFace.score (n + 1) self' = Ok (if data2 then 1 else -1).
Proof.
  intros n. cbn [face_run face_op_run].
  rewrite scrap_take_created. fold n. cbn [MyFace.post MyFace.i MyFace.posts].
  rewrite scrap_take_created. fold n. cbn [MyFace.post MyFace.i MyFace.posts].
  rewrite !posted_ids_app, !posted_ids_scraped. split; [reflexivity |].
  unfold MyFace.score. cbn [MyFace.posts]. rewrite lookup_insert_eq.
  now destruct data2.
Qed.

(** ** The generator of [scrap] *)

Lemma scrap_next_finished (g g' : MyFace.scrap_gen) (self self' : MyFace.t) :
  MyFace.scrap_next g self = (None, g', self') -> g' = MyFace.Finished.
Proof.
  destruct g as [limit|n k|]; simpl; unfold MyFace.scrap_loop.
  - destruct (0 <? py_or limit 100); intros [= <- _]; reflexivity || discriminate.
  - destruct (k <? n); intros [= <- _]; reflexivity || discriminate.
  - intros [= <- _]. reflexivity.
Qed.

(** X15: asking the [scrap] generator composes: asking [a + b] times
    gives what asking [a] times and then, of the generator and face as
    they are left, [b] more times gives. In particular an exhausted
    generator yields nothing more and changes nothing. *)
Theorem scrap_take_add (a b : nat) (g : MyFace.scrap_gen) (self : MyFace.t) :
  MyFace.scrap_take (a + b) g self =
  (let '(items1, g1, self1) := MyFace.scrap_take a g self in
   let '(items2, g2, self2) := MyFace.scrap_take b g1 self1 in
   (items1 ++ items2, g2, self2)) /\
  MyFace.scrap_take b MyFace.Finished self = ([], MyFace.Finished, self).
Proof.
  split.
  - revert g self. induction a as [|a IH]; intros g self.
    + simpl. now destruct (MyFace.scrap_take b g self) as [[items2 g2] self2].
    + cbn [Nat.add MyFace.scrap_take].
      destruct (MyFace.scrap_next g self) as [[[item|] g'] self'] eqn:Hn.
      * rewrite IH.
        destruct (MyFace.scrap_take a g' self') as [[items1 g1] self1].
        destruct (MyFace.scrap_take b g1 self1) as [[items2 g2] self2].
        reflexivity.
      * apply scrap_next_finished in Hn. subst g'.
        destruct b; reflexivity.
  - destruct b; reflexivity.
Qed.

(** X16: scraping never touches the stored posts: however often a [scrap]
    generator in whatever state is asked, every identifier scores after
    it, or raises, exactly as before. *)
Theorem scrap_preserves_scores
    (pulls : nat) (g : MyFace.scrap_gen) (self : MyFace.t) (post_id : Z) :
  MyFace.score post_id (MyFace.scrap_take pulls g self).2 = MyFace.score post_id self.
Proof.
  unfold MyFace.score.
  pose proof (scrap_take_posts pulls g self) as H. simpl in H. now rewrite H.
Qed.
